(** * Conway's Game of Life (script.js): a shallow embedding and its properties

    The script keeps one [GameOfLife] object whose methods read and assign
    [this.grid] and [this.isRunning], draw on a canvas, read the window size,
    call [Math.random] and schedule their own next call.  The embedding keeps
    that shape: a record [State] for everything the methods can read or
    assign, a state-and-exception monad [JS] for the method bodies, and a
    [trace] of the calls that leave the object (canvas calls, [setTimeout])
    together with the calls of [countNeighbors]. *)

From Stdlib Require Import ZArith QArith Lia String List Bool.
From stdpp Require Import base list.

Local Open Scope Z_scope.

(** ** JavaScript values used by the script *)

(** The numbers of the script are integers (indices, lengths, pixel sizes),
    except that [x % 0] is NaN. *)
Inductive Number : Type :=
| Int (z : Z)
| NaN.

(** [a % b] on integers: the remainder has the sign of the dividend. *)
Definition js_rem (a b : Z) : Number :=
  if b =? 0 then NaN else Int (Z.rem a b).

(** [arr.length] *)
Definition len {A : Type} (arr : list A) : Z := Z.of_nat (length arr).

(** [arr[k]]: [None] is [undefined] (no such property). *)
Definition get {A : Type} (arr : list A) (k : Number) : option A :=
  match k with
  | Int z => if z <? 0 then None else arr !! Z.to_nat z
  | NaN => None
  end.

(** A cell read as a condition: [undefined] is falsy. *)
Definition truthy (v : option bool) : bool :=
  match v with
  | Some b => b
  | None => false
  end.

Inductive Error : Type :=
| TypeError    (* a property of [undefined] is read *)
| RangeError.  (* [Array(n)] with an invalid length *)

Inductive Completion (A : Type) : Type :=
| Normal (a : A)
| Throw (e : Error).
Arguments Normal {A} a.
Arguments Throw {A} e.

(** ** The state *)

Abbreviation Grid := (list (list bool)).

(** What the script calls, in the order of the calls. *)
Inductive Event : Type :=
| Call_countNeighbors (row col : Z)
| ClearRect (x y w h : Z)
| FillStyle (v : option string)
| BeginPath
| RoundRect (x y w h radii : Z)
| Fill
| SetTimeout (delay : Z).

Record State : Type := mkState {
  isRunning : bool;          (* this.isRunning *)
  grid : Grid;               (* this.grid *)
  canvas_width : Z;          (* this.canvas.width *)
  canvas_height : Z;         (* this.canvas.height *)
  innerWidth : Z;            (* window.innerWidth *)
  innerHeight : Z;           (* window.innerHeight *)
  entropy : nat -> Q;        (* the value of the n-th call of Math.random *)
  draws : nat;               (* calls of Math.random so far *)
  timers : nat;              (* scheduled calls of gameLoop not yet run *)
  trace : list Event
}.

Definition set_isRunning (b : bool) (s : State) : State :=
  mkState b (grid s) (canvas_width s) (canvas_height s) (innerWidth s)
    (innerHeight s) (entropy s) (draws s) (timers s) (trace s).

Definition set_grid (g : Grid) (s : State) : State :=
  mkState (isRunning s) g (canvas_width s) (canvas_height s) (innerWidth s)
    (innerHeight s) (entropy s) (draws s) (timers s) (trace s).

Definition set_canvas_width (w : Z) (s : State) : State :=
  mkState (isRunning s) (grid s) w (canvas_height s) (innerWidth s)
    (innerHeight s) (entropy s) (draws s) (timers s) (trace s).

Definition set_canvas_height (h : Z) (s : State) : State :=
  mkState (isRunning s) (grid s) (canvas_width s) h (innerWidth s)
    (innerHeight s) (entropy s) (draws s) (timers s) (trace s).

Definition set_window (w h : Z) (s : State) : State :=
  mkState (isRunning s) (grid s) (canvas_width s) (canvas_height s) w h
    (entropy s) (draws s) (timers s) (trace s).

Definition set_draws (n : nat) (s : State) : State :=
  mkState (isRunning s) (grid s) (canvas_width s) (canvas_height s)
    (innerWidth s) (innerHeight s) (entropy s) n (timers s) (trace s).

Definition set_timers (n : nat) (s : State) : State :=
  mkState (isRunning s) (grid s) (canvas_width s) (canvas_height s)
    (innerWidth s) (innerHeight s) (entropy s) (draws s) n (trace s).

(** [log evs s]: the calls [evs] are made, in this order. *)
Definition log (evs : list Event) (s : State) : State :=
  mkState (isRunning s) (grid s) (canvas_width s) (canvas_height s)
    (innerWidth s) (innerHeight s) (entropy s) (draws s) (timers s)
    (trace s ++ evs).

(** ** Method bodies: state and exceptions *)

Definition JS (A : Type) : Type := State -> Completion A * State.

Definition ret {A : Type} (a : A) : JS A := fun s => (Normal a, s).

Definition bind {A B : Type} (m : JS A) (k : A -> JS B) : JS B :=
  fun s =>
    match m s with
    | (Normal a, s') => k a s'
    | (Throw e, s') => (Throw e, s')
    end.

Definition throw {A : Type} (e : Error) : JS A := fun s => (Throw e, s).

Definition gets {A : Type} (f : State -> A) : JS A := fun s => (Normal (f s), s).

Definition modify (f : State -> State) : JS unit := fun s => (Normal tt, f s).

Declare Scope js_scope.
Delimit Scope js_scope with js.
Notation "x <- m ;; k" := (bind m (fun x => k))
  (at level 100, m at next level, right associativity) : js_scope.
Notation "m ;; k" := (bind m (fun _ => k))
  (at level 100, right associativity) : js_scope.
Local Open Scope js_scope.

(** [o.p] where [o] may be [undefined]. *)
Definition defined {A : Type} (o : option A) : JS A :=
  match o with
  | Some a => ret a
  | None => throw TypeError
  end.

(** [arr.map((x, i) => f x i)], the callbacks run in index order. *)
Fixpoint map_from {A B : Type} (f : A -> Z -> JS B) (i : Z) (arr : list A)
  : JS (list B) :=
  match arr with
  | [] => ret []
  | x :: rest =>
      y <- f x i ;;
      ys <- map_from f (i + 1) rest ;;
      ret (y :: ys)
  end.

Definition Array_map {A B : Type} (f : A -> Z -> JS B) (arr : list A)
  : JS (list B) :=
  map_from f 0 arr.

(** [arr.forEach((x, i) => f x i)] *)
Fixpoint forEach_from {A : Type} (f : A -> Z -> JS unit) (i : Z) (arr : list A)
  : JS unit :=
  match arr with
  | [] => ret tt
  | x :: rest => f x i ;; forEach_from f (i + 1) rest
  end.

Definition Array_forEach {A : Type} (f : A -> Z -> JS unit) (arr : list A)
  : JS unit :=
  forEach_from f 0 arr.

(** The largest length of an array, 2^32 - 1. *)
Definition MAX_ARRAY_LENGTH : Z := 4294967295.

(** [Array(n).fill()]: [n] times [undefined]; an invalid length throws. *)
Definition Array_fill (n : Z) : JS (list unit) :=
  if (n <? 0) || (MAX_ARRAY_LENGTH <? n) then throw RangeError
  else ret (replicate (Z.to_nat n) tt).

(** [for (let x = ...; ...; x++) body], over the values [x] takes, with the
    local variable the body assigns threaded through. *)
Fixpoint for_of {A : Type} (xs : list Z) (body : Z -> A -> JS A) (acc : A)
  : JS A :=
  match xs with
  | [] => ret acc
  | x :: rest => acc' <- body x acc ;; for_of rest body acc'
  end.

(** [Math.random()]: a number in [0, 1); a finite double is a rational. *)
Definition Math_random : JS Q :=
  fun s => (Normal (entropy s (draws s)), set_draws (S (draws s)) s).

(** ** CONFIG *)

Definition CELL_SIZE : Z := 10.
Definition FRAME_DELAY : Z := 500.

(** The double written [0.3] is 5404319552844595 / 2^54. *)
Definition INITIAL_ALIVE_PROBABILITY : Q :=
  5404319552844595 # 18014398509481984.

Definition COLORS (k : Z) : option string :=
  match k with
  | 0 => Some "#9be9a8"%string
  | 1 => Some "#40c463"%string
  | 2 => Some "#30a14e"%string
  | 3 => Some "#216e39"%string
  | _ => None
  end.

(** ** class GameOfLife *)

(** [a > b] on numbers *)
Definition gt (a b : Q) : bool := negb (Qle_bool a b).

Definition calculateGridDimensions : JS (Z * Z) :=
  h <- gets innerHeight ;;
  w <- gets innerWidth ;;
  ret (h / CELL_SIZE, w / CELL_SIZE).

Definition initGrid : JS unit :=
  dims <- calculateGridDimensions ;;
  let rows := fst dims in
  let cols := snd dims in
  outer <- Array_fill rows ;;
  g <- Array_map (fun _ _ =>
         inner <- Array_fill cols ;;
         Array_map (fun _ _ =>
           u <- Math_random ;;
           ret (gt u INITIAL_ALIVE_PROBABILITY)) inner) outer ;;
  modify (set_grid g).

(** The body of the inner loop of [countNeighbors] for one [i] and [j];
    [count] is the local variable.  The sums are those of integers; the
    script's numbers hold them exactly below 2^53, so for the indices of
    cells and far beyond. *)
Definition countNeighbors_body (row col i j count : Z) : JS Z :=
  if (i =? 0) && (j =? 0) then ret count
  else
    g <- gets grid ;;
    let newRow := js_rem (row + i + len g) (len g) in
    g0 <- defined (get g (Int 0)) ;;
    let newCol := js_rem (col + j + len g0) (len g0) in
    r <- defined (get g newRow) ;;
    if truthy (get r newCol) then ret (count + 1) else ret count.

Definition countNeighbors (row col : Z) : JS Z :=
  modify (log [Call_countNeighbors row col]) ;;
  for_of [-1; 0; 1] (fun i count =>
    for_of [-1; 0; 1] (fun j count =>
      countNeighbors_body row col i j count) count) 0.

Definition drawCell (row col neighbors : Z) : JS unit :=
  modify (log [FillStyle (COLORS (Z.min 3 neighbors));
               BeginPath;
               RoundRect (col * CELL_SIZE) (row * CELL_SIZE)
                         (CELL_SIZE - 1) (CELL_SIZE - 1) 2;
               Fill]).

Definition draw : JS unit :=
  w <- gets canvas_width ;;
  h <- gets canvas_height ;;
  modify (log [ClearRect 0 0 w h]) ;;
  g <- gets grid ;;
  Array_forEach (fun row i =>
    Array_forEach (fun (cell : bool) j =>
      if cell then
        n <- countNeighbors i j ;;
        drawCell i j n
      else ret tt) row) g.

Definition update : JS unit :=
  g <- gets grid ;;
  g' <- Array_map (fun row i =>
          Array_map (fun (cell : bool) j =>
            neighbors <- countNeighbors i j ;;
            ret ((neighbors =? 3) || (cell && (neighbors =? 2)))) row) g ;;
  modify (set_grid g').

(** [setTimeout(() => requestAnimationFrame(() => this.gameLoop()), delay)]:
    one more call of [gameLoop] is waiting. *)
Definition setTimeout_gameLoop (delay : Z) : JS unit :=
  modify (fun s => set_timers (S (timers s)) (log [SetTimeout delay] s)).

Definition gameLoop : JS unit :=
  running <- gets isRunning ;;
  if running then
    update ;;
    draw ;;
    setTimeout_gameLoop FRAME_DELAY
  else ret tt.

Definition toggle : JS unit :=
  running <- gets isRunning ;;
  modify (set_isRunning (negb running)) ;;
  running' <- gets isRunning ;;
  if running' then gameLoop else ret tt.

Definition initializeCanvas : JS unit :=
  w <- gets innerWidth ;;
  modify (set_canvas_width w) ;;
  h <- gets innerHeight ;;
  modify (set_canvas_height h) ;;
  initGrid.

Definition reset : JS unit :=
  modify (set_isRunning false) ;;
  initGrid ;;
  draw.

(** [new GameOfLife('gameCanvas')]; the listener of [bindEvents] is the
    [Resize] case of [handle]. *)
Definition constructor : JS unit :=
  modify (set_isRunning false) ;;
  modify (set_grid []) ;;
  initializeCanvas.

(** ** The page: what can happen to the game *)

Inductive Action : Type :=
| ToggleGame            (* window.toggleGame() *)
| ResetGame             (* window.resetGame() *)
| Resize (w h : Z)      (* the window is resized, the listener runs *)
| Frame.                (* a scheduled call of gameLoop comes due *)

Definition handle (a : Action) : JS unit :=
  match a with
  | ToggleGame => toggle
  | ResetGame => reset
  | Resize w h => modify (set_window w h) ;; initializeCanvas
  | Frame =>
      n <- gets timers ;;
      match n with
      | O => ret tt
      | S k => modify (set_timers k) ;; gameLoop
      end
  end.

(** An exception ends the handler that threw it; the page goes on. *)
Definition exec (s : State) (a : Action) : State := snd (handle a s).

Definition run (acts : list Action) (s : State) : State := foldl exec s acts.

(** The script's top level: [new GameOfLife('gameCanvas')], [game.draw()].
    A canvas is 300 by 150 until it is resized.  Where the constructor
    throws, the script ends there and installs no control; [run] from such a
    state describes more than the page can do. *)
Definition boot (w h : Z) (rnd : nat -> Q) : State :=
  snd ((constructor ;; draw) (mkState false [] 300 150 w h rnd 0 0 [])).

(** ** Grids as values *)

(** The eight [(i, j)] of the two loops of [countNeighbors], in loop order. *)
Definition offsets : list (Z * Z) :=
  [(-1, -1); (-1, 0); (-1, 1); (0, -1); (0, 1); (1, -1); (1, 0); (1, 1)].

(** [this.grid[0].length], where there is a first row. *)
Definition width (g : Grid) : Z :=
  match g with
  | [] => 0
  | g0 :: _ => len g0
  end.

(** The condition [this.grid[newRow][newCol]] of [countNeighbors] for one
    offset, where the row [newRow] exists. *)
Definition neighborAlive (g : Grid) (row col : Z) (ij : Z * Z) : bool :=
  match get g (js_rem (row + fst ij + len g) (len g)) with
  | Some r => truthy (get r (js_rem (col + snd ij + width g) (width g)))
  | None => false
  end.

(** The value of [count] after the loops. *)
Definition liveNeighbors (g : Grid) (row col : Z) : Z :=
  fold_left (fun count ij =>
               if neighborAlive g row col ij then count + 1 else count)
            offsets 0.

(** The cell at a row and a column, where there is one. *)
Definition cell (g : Grid) (r c : nat) : option bool :=
  match g !! r with
  | Some row => row !! c
  | None => None
  end.

(** The specification's neighbour count: the live cells among the eight
    positions [((row + i + rows) mod rows, (col + j + cols) mod cols)]. *)
Definition torusNeighbors (g : Grid) (row col : Z) : Z :=
  let rows := len g in
  let cols := width g in
  Z.of_nat (length (List.filter
    (fun ij : Z * Z =>
       truthy (cell g (Z.to_nat ((row + fst ij + rows) mod rows))
                      (Z.to_nat ((col + snd ij + cols) mod cols))))
    offsets)).

(** The value the callback of [update] returns. *)
Definition nextCell (neighbors : Z) (alive : bool) : bool :=
  (neighbors =? 3) || (alive && (neighbors =? 2)).

(** The next generation as a function of the grid alone. *)
Definition nextGen (g : Grid) : Grid :=
  imap (fun i row =>
    imap (fun j alive =>
      nextCell (liveNeighbors g (Z.of_nat i) (Z.of_nat j)) alive) row) g.

(** The calls of [countNeighbors] that [update] makes on [g]. *)
Definition updateCalls (g : Grid) : list Event :=
  concat (imap (fun i row =>
    imap (fun j (_ : bool) =>
      Call_countNeighbors (Z.of_nat i) (Z.of_nat j)) row) g).

(** The calls one [drawCell i j n] makes. *)
Definition cellPath (i j n : Z) : list Event :=
  [FillStyle (COLORS (Z.min 3 n)); BeginPath;
   RoundRect (j * CELL_SIZE) (i * CELL_SIZE) (CELL_SIZE - 1) (CELL_SIZE - 1) 2;
   Fill].

(** The calls of one [draw] after its [clearRect]. *)
Definition cellPaths (g : Grid) : list Event :=
  concat (imap (fun i row =>
    concat (imap (fun j (alive : bool) =>
      if alive then
        Call_countNeighbors (Z.of_nat i) (Z.of_nat j)
        :: cellPath (Z.of_nat i) (Z.of_nat j)
             (liveNeighbors g (Z.of_nat i) (Z.of_nat j))
      else []) row)) g).

(** One render of [g] on a canvas of [w] by [h]. *)
Definition render (w h : Z) (g : Grid) : list Event :=
  ClearRect 0 0 w h :: cellPaths g.

(** The row [initGrid] builds from the draws [d], [d + 1], ... of [rnd]. *)
Definition seedRow (rnd : nat -> Q) (d cols : nat) : list bool :=
  (fun m => gt (rnd m) INITIAL_ALIVE_PROBABILITY) <$> seq d cols.

(** The grid [initGrid] builds, row after row, from the draws [d],
    [d + 1], ... of [rnd]. *)
Fixpoint seedGrid (rnd : nat -> Q) (d rows cols : nat) : Grid :=
  match rows with
  | O => []
  | S rows' => seedRow rnd d cols :: seedGrid rnd (d + cols) rows' cols
  end.

(** The window has a size of which [Array] can make a grid. *)
Definition validViewport (s : State) : Prop :=
  0 <= innerHeight s / CELL_SIZE <= MAX_ARRAY_LENGTH
  /\ 0 <= innerWidth s / CELL_SIZE <= MAX_ARRAY_LENGTH.

(** The rows and columns of [calculateGridDimensions], as lengths. *)
Definition viewRows (s : State) : nat := Z.to_nat (innerHeight s / CELL_SIZE).
Definition viewCols (s : State) : nat := Z.to_nat (innerWidth s / CELL_SIZE).

(** All rows have the same length. *)
Definition rectangular (g : Grid) : Prop :=
  forall r1 r2 : list bool, r1 ∈ g -> r2 ∈ g -> length r1 = length r2.

(** [rows] rows of [cols] cells. *)
Definition hasDims (g : Grid) (rows cols : nat) : Prop :=
  length g = rows /\ Forall (fun r : list bool => length r = cols) g.

(** ** Traversals of the cells *)

(** [buf[r][c] = b] *)
Definition writeCell (buf : Grid) (r c : nat) (b : bool) : Grid :=
  alter (fun row => <[c := b]> row) r buf.

(** The new state of the cell at [(r, c)], read off the grid [g]. *)
Definition newState (g : Grid) (r c : nat) : bool :=
  nextCell (liveNeighbors g (Z.of_nat r) (Z.of_nat c))
           (truthy (cell g r c)).

(** One visit of a traversal: the cell at [rc] gets the new state read off
    the grid [snapshot]. *)
Definition visit (snapshot buf : Grid) (rc : nat * nat) : Grid :=
  writeCell buf (fst rc) (snd rc) (newState snapshot (fst rc) (snd rc)).

(** A step that visits the cells in the order [order] and computes each new
    state from the snapshot [g] of the prior generation. *)
Definition stepInOrder (order : list (nat * nat)) (g : Grid) : Grid :=
  foldl (visit g) g order.

(** A step in place: each new state is computed from the grid as the cells
    visited before have left it. *)
Definition stepInPlace (order : list (nat * nat)) (g : Grid) : Grid :=
  foldl (fun buf rc => visit buf buf rc) g order.

(** The coordinates of a [rows] by [cols] grid, row by row and column by
    column. *)
Definition rowMajor (rows cols : nat) : list (nat * nat) :=
  r ← seq 0 rows; c ← seq 0 cols; [(r, c)].

Definition columnMajor (rows cols : nat) : list (nat * nat) :=
  c ← seq 0 cols; r ← seq 0 rows; [(r, c)].

(** The state of a game whose grid is [g], with nothing else set. *)
Definition gameWith (running : bool) (g : Grid) : State :=
  mkState running g 0 0 0 0 (fun _ => 0%Q) 0 0 [].

(** What one run of the body of [gameLoop] leaves of [s]: the next
    generation, its render, and one more scheduled call. *)
Definition tick (s : State) : State :=
  set_timers (S (timers s))
    (log (updateCalls (grid s)
          ++ render (canvas_width s) (canvas_height s) (nextGen (grid s))
          ++ [SetTimeout FRAME_DELAY])
       (set_grid (nextGen (grid s)) s)).

(** What [reset] leaves of [s] when the window has a valid size. *)
Definition afterReset (s : State) : State :=
  let g := seedGrid (entropy s) (draws s) (viewRows s) (viewCols s) in
  log (render (canvas_width s) (canvas_height s) g)
    (set_grid g
       (set_draws (draws s + viewRows s * viewCols s)
          (set_isRunning false s))).

(** ** Sample inputs *)

(** The 3 by 3 grid whose only live cell is (0, 0). *)
Definition corner33 : Grid :=
  [[true; false; false]; [false; false; false]; [false; false; false]].

(** A vertical blinker in a 5 by 5 grid. *)
Definition blinker : Grid :=
  [[false; false; false; false; false];
   [false; false; true; false; false];
   [false; false; true; false; false];
   [false; false; true; false; false];
   [false; false; false; false; false]].

(** A 2 by 2 block in a 4 by 4 grid. *)
Definition block : Grid :=
  [[false; false; false; false];
   [false; true; true; false];
   [false; true; true; false];
   [false; false; false; false]].

(** Ten draws spread evenly over [0, 1): 1/20, 3/20, ..., 19/20. *)
Definition decileDraws (n : nat) : Q := (2 * Z.of_nat n + 1) # 20.

(** A page of [w] by [h] pixels before the script runs. *)
Definition page (w h : Z) (rnd : nat -> Q) : State :=
  mkState false [] 300 150 w h rnd 0 0 [].

(** ** Measures of grids and of traces *)

(** The number of live cells, and of cells. *)
Definition liveCells (g : Grid) : nat :=
  sum_list ((fun row : list bool => length (List.filter id row)) <$> g).

Definition cellCount (g : Grid) : nat :=
  sum_list ((fun row : list bool => length row) <$> g).

(** No cell is alive. *)
Definition allDead (g : Grid) : Prop :=
  forall r c : nat, cell g r c <> Some true.

Definition isFill (e : Event) : bool :=
  match e with Fill => true | _ => false end.

Definition isClearRect (e : Event) : bool :=
  match e with ClearRect _ _ _ _ => true | _ => false end.

Definition isCall (e : Event) : bool :=
  match e with Call_countNeighbors _ _ => true | _ => false end.

(** How many of the calls [evs] are of the kind [p]. *)
Definition countEvents (p : Event -> bool) (evs : list Event) : nat :=
  length (List.filter p evs).

(** A rounded rectangle lies on a canvas of [w] by [h]; other calls have
    no place. *)
Definition inCanvas (w h : Z) (e : Event) : Prop :=
  match e with
  | RoundRect x y rw rh _ => 0 <= x /\ x + rw <= w /\ 0 <= y /\ y + rh <= h
  | _ => True
  end.

(** A rounded rectangle is the square of a live cell of [g]: 9 by 9, with
    corners of radius 2, at 10 times the column and 10 times the row. *)
Definition squareOfLiveCell (g : Grid) (e : Event) : Prop :=
  match e with
  | RoundRect x y rw rh radii =>
      exists i j : nat,
        cell g i j = Some true
        /\ x = 10 * Z.of_nat j /\ y = 10 * Z.of_nat i
        /\ rw = 9 /\ rh = 9 /\ radii = 2
  | _ => True
  end.

(** The fill style assigned is one of the four colours of [CONFIG]. *)
Definition styleDefined (e : Event) : Prop :=
  match e with
  | FillStyle v => exists k : Z, 0 <= k <= 3 /\ v = COLORS k /\ v <> None
  | _ => True
  end.

(** The canvas has the size of the window. *)
Definition canvasFollowsWindow (s : State) : Prop :=
  canvas_width s = innerWidth s /\ canvas_height s = innerHeight s.

(** The cell of [row] at the index [k] wrapped around, as [countNeighbors]
    reads it. *)
Definition wrapped (row : list bool) (k : Z) : bool :=
  truthy (get row (js_rem (k + len row) (len row))).

(** * Properties *)

(** ** The state and the monad *)

Lemma log_log (a b : list Event) (s : State) :
  log b (log a s) = log (a ++ b) s.
Proof. unfold log; simpl. by rewrite app_assoc. Qed.

Lemma log_nil (s : State) : log [] s = s.
Proof. destruct s; unfold log; simpl. by rewrite app_nil_r. Qed.

Lemma grid_log (evs : list Event) (s : State) : grid (log evs s) = grid s.
Proof. reflexivity. Qed.

Lemma set_grid_log (g : Grid) (evs : list Event) (s : State) :
  set_grid g (log evs s) = log evs (set_grid g s).
Proof. reflexivity. Qed.

Lemma bind_Normal {A B : Type} (m : JS A) (k : A -> JS B) (s s' : State) (a : A) :
  m s = (Normal a, s') -> bind m k s = k a s'.
Proof. unfold bind. by intros ->. Qed.

Lemma bind_Throw {A B : Type} (m : JS A) (k : A -> JS B) (s s' : State) (e : Error) :
  m s = (Throw e, s') -> bind m k s = (Throw e, s').
Proof. unfold bind. by intros ->. Qed.

(** ** Indices that wrap around *)

Lemma len_pos {A : Type} (l : list A) : l <> [] -> 0 < len l.
Proof. destruct l; [done|]. unfold len; simpl; lia. Qed.

Lemma js_rem_mod (idx d n : Z) :
  0 <= idx -> -1 <= d -> 0 < n ->
  js_rem (idx + d + n) n = Int ((idx + d + n) mod n).
Proof.
  intros Hidx Hd Hn. unfold js_rem.
  destruct (Z.eqb_spec n 0) as [->|_]; [lia|].
  by rewrite Z.rem_mod_nonneg by lia.
Qed.

Lemma get_Int {A : Type} (l : list A) (z : Z) :
  0 <= z -> get l (Int z) = l !! Z.to_nat z.
Proof.
  intros Hz. unfold get.
  by destruct (Z.ltb_spec z 0) as [?|_]; [lia|].
Qed.

Lemma get_wrap_Some {A : Type} (l : list A) (idx d : Z) :
  0 <= idx -> -1 <= d -> l <> [] ->
  is_Some (get l (js_rem (idx + d + len l) (len l))).
Proof.
  intros Hidx Hd Hl. pose proof (len_pos l Hl) as Hpos.
  rewrite js_rem_mod by done.
  pose proof (Z.mod_pos_bound (idx + d + len l) (len l) Hpos) as [Hlo Hhi].
  rewrite get_Int by done.
  apply lookup_lt_is_Some. unfold len in *. lia.
Qed.

(** ** countNeighbors *)

Lemma countNeighbors_body_spec (s : State) (row col i j count : Z) :
  grid s <> [] -> 0 <= row -> -1 <= i ->
  (i =? 0) && (j =? 0) = false ->
  countNeighbors_body row col i j count s
  = (Normal (if neighborAlive (grid s) row col (i, j)
             then count + 1 else count), s).
Proof.
  intros Hg Hrow Hi Hij. unfold countNeighbors_body. rewrite Hij.
  unfold neighborAlive; cbn [fst snd].
  destruct (get_wrap_Some (grid s) row i Hrow Hi Hg) as [r Hr].
  rewrite Hr.
  assert (H0 : get (grid s) (Int 0) = Some (default [] (head (grid s)))).
  { by destruct (grid s). }
  assert (Hw : width (grid s) = len (default [] (head (grid s)))).
  { by destruct (grid s). }
  rewrite Hw. unfold bind, gets. rewrite H0; cbn [defined ret].
  rewrite Hr; cbn [defined ret].
  by destruct (truthy _).
Qed.

Lemma countNeighbors_body_center (s : State) (row col count : Z) :
  countNeighbors_body row col 0 0 count s = (Normal count, s).
Proof. reflexivity. Qed.

Lemma countNeighbors_spec (s : State) (row col : Z) :
  grid s <> [] -> 0 <= row ->
  countNeighbors row col s
  = (Normal (liveNeighbors (grid s) row col),
     log [Call_countNeighbors row col] s).
Proof.
  intros Hg Hrow. unfold countNeighbors.
  erewrite bind_Normal by reflexivity.
  set (s1 := log _ s). assert (Hg1 : grid s1 <> []) by done.
  cbn [for_of]. unfold bind, ret.
  repeat (rewrite countNeighbors_body_spec by (done || lia); cbv beta iota).
  rewrite countNeighbors_body_center; cbv beta iota.
  repeat (rewrite countNeighbors_body_spec by (done || lia); cbv beta iota).
  reflexivity.
Qed.

Lemma fold_count {A : Type} (p : A -> bool) (l : list A) (a : Z) :
  fold_left (fun count x => if p x then count + 1 else count) l a
  = a + Z.of_nat (length (List.filter p l)).
Proof.
  revert a. induction l as [|x l IH]; intros a; simpl; [lia|].
  rewrite IH. destruct (p x); simpl length; lia.
Qed.

Lemma liveNeighbors_filter (g : Grid) (row col : Z) :
  liveNeighbors g row col
  = Z.of_nat (length (List.filter (neighborAlive g row col) offsets)).
Proof. unfold liveNeighbors. by rewrite fold_count. Qed.

Lemma liveNeighbors_bounds (g : Grid) (row col : Z) :
  0 <= liveNeighbors g row col <= 8.
Proof.
  rewrite liveNeighbors_filter.
  pose proof (List.filter_length_le (neighborAlive g row col) offsets) as H.
  change (length offsets) with 8%nat in H. lia.
Qed.

Lemma offsets_range (ij : Z * Z) :
  In ij offsets -> -1 <= fst ij /\ -1 <= snd ij.
Proof.
  unfold offsets; simpl.
  intros H; repeat (destruct H as [<-|H]; [simpl; lia|]); done.
Qed.

Lemma neighborAlive_torus (g : Grid) (row col : Z) (ij : Z * Z) :
  g <> [] -> 0 < width g -> 0 <= row -> 0 <= col ->
  -1 <= fst ij -> -1 <= snd ij ->
  neighborAlive g row col ij
  = truthy (cell g (Z.to_nat ((row + fst ij + len g) mod len g))
                   (Z.to_nat ((col + snd ij + width g) mod width g))).
Proof.
  intros Hg Hw Hrow Hcol Hi Hj. unfold neighborAlive, cell.
  pose proof (len_pos g Hg) as Hpos.
  rewrite !js_rem_mod by done.
  rewrite get_Int by (apply Z.mod_pos_bound; lia).
  destruct (g !! _) as [r|]; [|done].
  by rewrite get_Int by (apply Z.mod_pos_bound; lia).
Qed.

Lemma liveNeighbors_torus (g : Grid) (row col : Z) :
  g <> [] -> 0 < width g -> 0 <= row -> 0 <= col ->
  liveNeighbors g row col = torusNeighbors g row col.
Proof.
  intros Hg Hw Hrow Hcol. rewrite liveNeighbors_filter. unfold torusNeighbors.
  do 2 f_equal. apply List.filter_ext_in. intros ij Hin.
  destruct (offsets_range ij Hin). by apply neighborAlive_torus.
Qed.

(** ** Array callbacks that only make calls *)

Lemma imap_shift {A C : Type} (F : Z -> A -> C) (k : Z) (l : list A) :
  imap (fun n => F (k + 1 + Z.of_nat n)) l
  = imap ((fun n => F (k + Z.of_nat n)) ∘ S) l.
Proof. apply imap_ext; intros n y _; simpl. f_equal; lia. Qed.

Section Callbacks.
Context {A B : Type} (P : State -> Prop) (T : Z -> A -> list Event).
Hypothesis P_log : forall (s : State) (evs : list Event), P s -> P (log evs s).

Lemma map_from_log (f : A -> Z -> JS B) (F : Z -> A -> B) :
  (forall (x : A) (i : Z) (s : State), P s -> 0 <= i ->
     f x i s = (Normal (F i x), log (T i x) s)) ->
  forall (l : list A) (k : Z) (s : State), P s -> 0 <= k ->
    map_from f k l s
    = (Normal (imap (fun n => F (k + Z.of_nat n)) l),
       log (concat (imap (fun n => T (k + Z.of_nat n)) l)) s).
Proof.
  intros Hf l. induction l as [|x l IH]; intros k s Hs Hk.
  - simpl. unfold ret. by rewrite log_nil.
  - cbn [map_from].
    erewrite bind_Normal by (apply Hf; done).
    erewrite bind_Normal by (apply IH; [by apply P_log|lia]).
    unfold ret. rewrite log_log, !imap_cons. cbn [concat].
    by rewrite !Z.add_0_r, !imap_shift.
Qed.

Lemma forEach_from_log (f : A -> Z -> JS unit) :
  (forall (x : A) (i : Z) (s : State), P s -> 0 <= i ->
     f x i s = (Normal tt, log (T i x) s)) ->
  forall (l : list A) (k : Z) (s : State), P s -> 0 <= k ->
    forEach_from f k l s
    = (Normal tt, log (concat (imap (fun n => T (k + Z.of_nat n)) l)) s).
Proof.
  intros Hf l. induction l as [|x l IH]; intros k s Hs Hk.
  - simpl. unfold ret. by rewrite log_nil.
  - cbn [forEach_from].
    erewrite bind_Normal by (apply Hf; done).
    rewrite IH by (by apply P_log || lia).
    rewrite log_log, imap_cons. cbn [concat].
    by rewrite Z.add_0_r, imap_shift.
Qed.

End Callbacks.

Lemma concat_imap_singleton {A C : Type} (f : nat -> A -> C) (l : list A) :
  concat (imap (fun n x => [f n x]) l) = imap f l.
Proof.
  revert f. induction l as [|x l IH]; intros f; [done|].
  rewrite !imap_cons. cbn [concat app]. f_equal. apply (IH (f ∘ S)).
Qed.

(** ** update *)

Lemma update_row_spec (g : Grid) (i : Z) (row : list bool) (s : State) :
  grid s = g -> g <> [] -> 0 <= i ->
  Array_map (fun (alive : bool) j =>
               neighbors <- countNeighbors i j ;;
               ret ((neighbors =? 3) || (alive && (neighbors =? 2)))) row s
  = (Normal (imap (fun n alive =>
                     nextCell (liveNeighbors g i (Z.of_nat n)) alive) row),
     log (imap (fun n _ => Call_countNeighbors i (Z.of_nat n)) row) s).
Proof.
  intros Hs Hg Hi. unfold Array_map.
  rewrite (map_from_log (fun s' => grid s' = g)
             (fun j _ => [Call_countNeighbors i j])
             (fun s' evs H => H) _
             (fun j alive => nextCell (liveNeighbors g i j) alive));
    [|intros alive j s' Hs' Hj|done|done].
  - by rewrite concat_imap_singleton.
  - erewrite bind_Normal by (apply countNeighbors_spec; [by rewrite Hs'|done]).
    by rewrite Hs'.
Qed.

Lemma update_spec (s : State) :
  update s
  = (Normal tt, set_grid (nextGen (grid s)) (log (updateCalls (grid s)) s)).
Proof.
  unfold update. erewrite bind_Normal by reflexivity.
  destruct (decide (grid s = [])) as [E|Hne].
  - rewrite E. cbn. unfold ret, bind, modify; cbn.
    by rewrite log_nil.
  - unfold Array_map.
    erewrite bind_Normal; [reflexivity|].
    rewrite (map_from_log (fun s' => grid s' = grid s)
               (fun i row => imap (fun n (_ : bool) =>
                               Call_countNeighbors i (Z.of_nat n)) row)
               (fun s' evs H => H) _
               (fun i row => imap (fun n alive =>
                               nextCell (liveNeighbors (grid s) i (Z.of_nat n))
                                        alive) row));
      [reflexivity| |done|done].
    intros row i s' Hs' Hi. by apply update_row_spec.
Qed.

Lemma update_grid (s : State) : grid (snd (update s)) = nextGen (grid s).
Proof. by rewrite update_spec. Qed.

(** ** draw *)

Lemma draw_row_spec (g : Grid) (i : Z) (row : list bool) (s : State) :
  grid s = g -> g <> [] -> 0 <= i ->
  Array_forEach (fun (alive : bool) j =>
                   if alive then
                     n <- countNeighbors i j ;;
                     drawCell i j n
                   else ret tt) row s
  = (Normal tt,
     log (concat (imap (fun n (alive : bool) =>
            if alive then
              Call_countNeighbors i (Z.of_nat n)
              :: cellPath i (Z.of_nat n) (liveNeighbors g i (Z.of_nat n))
            else []) row)) s).
Proof.
  intros Hs Hg Hi. unfold Array_forEach.
  rewrite (forEach_from_log (fun s' => grid s' = g)
             (fun j (alive : bool) =>
                if alive then
                  Call_countNeighbors i j :: cellPath i j (liveNeighbors g i j)
                else [])
             (fun s' evs H => H));
    [done| |done|done].
  intros alive j s' Hs' Hj. destruct alive.
  - erewrite bind_Normal by (apply countNeighbors_spec; [by rewrite Hs'|done]).
    unfold drawCell, modify. by rewrite log_log, Hs'.
  - unfold ret. by rewrite log_nil.
Qed.

Lemma draw_spec (s : State) :
  draw s
  = (Normal tt, log (render (canvas_width s) (canvas_height s) (grid s)) s).
Proof.
  unfold draw. do 4 (erewrite bind_Normal by reflexivity).
  change (grid (log _ s)) with (grid s).
  destruct (decide (grid s = [])) as [E|Hne].
  - rewrite E. reflexivity.
  - unfold Array_forEach.
    rewrite (forEach_from_log (fun s' => grid s' = grid s)
               (fun i row => concat (imap (fun n (alive : bool) =>
                  if alive then
                    Call_countNeighbors i (Z.of_nat n)
                    :: cellPath i (Z.of_nat n)
                         (liveNeighbors (grid s) i (Z.of_nat n))
                  else []) row))
               (fun s' evs H => H));
      [by rewrite log_log| |done|done].
    intros row i s' Hs' Hi. by apply draw_row_spec.
Qed.

(** ** initGrid *)

Lemma Array_fill_spec (n : Z) (s : State) :
  0 <= n <= MAX_ARRAY_LENGTH ->
  Array_fill n s = (Normal (replicate (Z.to_nat n) tt), s).
Proof.
  intros [Hlo Hhi]. unfold Array_fill.
  destruct (Z.ltb_spec n 0); [lia|].
  destruct (Z.ltb_spec MAX_ARRAY_LENGTH n); [lia|]. reflexivity.
Qed.

Lemma set_draws_set_draws (n m : nat) (s : State) :
  set_draws n (set_draws m s) = set_draws n s.
Proof. reflexivity. Qed.

Lemma set_draws_same (s : State) : set_draws (draws s) s = s.
Proof. by destruct s. Qed.

Lemma seedRow_spec (n : nat) (k : Z) (s : State) :
  map_from (fun (_ : unit) (_ : Z) =>
              u <- Math_random ;;
              ret (gt u INITIAL_ALIVE_PROBABILITY)) k (replicate n tt) s
  = (Normal (seedRow (entropy s) (draws s) n),
     set_draws (draws s + n) s).
Proof.
  revert k s. induction n as [|n IH]; intros k s.
  - simpl. unfold ret. by rewrite Nat.add_0_r, set_draws_same.
  - cbn [replicate map_from].
    unfold bind at 1. unfold bind at 1. unfold Math_random at 1. unfold ret at 1.
    erewrite bind_Normal by apply IH.
    unfold ret. cbn [entropy draws set_draws].
    rewrite set_draws_set_draws. do 2 f_equal. lia.
Qed.

Lemma seedGrid_spec (cols : Z) (n : nat) (k : Z) (s : State) :
  0 <= cols <= MAX_ARRAY_LENGTH ->
  map_from (fun (_ : unit) (_ : Z) =>
              inner <- Array_fill cols ;;
              Array_map (fun (_ : unit) (_ : Z) =>
                u <- Math_random ;;
                ret (gt u INITIAL_ALIVE_PROBABILITY)) inner)
           k (replicate n tt) s
  = (Normal (seedGrid (entropy s) (draws s) n (Z.to_nat cols)),
     set_draws (draws s + n * Z.to_nat cols) s).
Proof.
  intros Hcols. revert k s. induction n as [|n IH]; intros k s.
  - simpl. unfold ret. by rewrite Nat.add_0_r, set_draws_same.
  - cbn [replicate map_from].
    erewrite bind_Normal.
    2:{ erewrite bind_Normal by (by apply Array_fill_spec).
        unfold Array_map. apply seedRow_spec. }
    erewrite bind_Normal by apply IH.
    unfold ret. cbn [entropy draws set_draws seedGrid].
    rewrite set_draws_set_draws. do 2 f_equal. lia.
Qed.

Lemma initGrid_spec (s : State) :
  validViewport s ->
  initGrid s
  = (Normal tt,
     set_grid (seedGrid (entropy s) (draws s) (viewRows s) (viewCols s))
       (set_draws (draws s + viewRows s * viewCols s) s)).
Proof.
  intros [Hrows Hcols]. unfold initGrid, calculateGridDimensions.
  erewrite bind_Normal by reflexivity. cbn [fst snd].
  erewrite bind_Normal by (by apply Array_fill_spec).
  unfold Array_map.
  erewrite bind_Normal by (by apply seedGrid_spec).
  reflexivity.
Qed.

Lemma seedRow_length (rnd : nat -> Q) (d cols : nat) :
  length (seedRow rnd d cols) = cols.
Proof. unfold seedRow. by rewrite length_fmap, length_seq. Qed.

Lemma seedRow_lookup (rnd : nat -> Q) (d cols j : nat) :
  (j < cols)%nat ->
  seedRow rnd d cols !! j = Some (gt (rnd (d + j)%nat) INITIAL_ALIVE_PROBABILITY).
Proof.
  intros Hj. unfold seedRow. rewrite list_lookup_fmap.
  by rewrite (lookup_seq_lt d cols j Hj).
Qed.

Lemma seedGrid_hasDims (rnd : nat -> Q) (d rows cols : nat) :
  hasDims (seedGrid rnd d rows cols) rows cols.
Proof.
  revert d. induction rows as [|rows IH]; intros d; simpl.
  - by split.
  - destruct (IH (d + cols)%nat) as [Hl Hf]. split; [simpl; lia|].
    constructor; [apply seedRow_length|done].
Qed.

Lemma seedGrid_cell (rnd : nat -> Q) (d rows cols i j : nat) :
  (i < rows)%nat -> (j < cols)%nat ->
  cell (seedGrid rnd d rows cols) i j
  = Some (gt (rnd (d + i * cols + j)%nat) INITIAL_ALIVE_PROBABILITY).
Proof.
  revert d i. induction rows as [|rows IH]; intros d i Hi Hj; [lia|].
  destruct i as [|i].
  - unfold cell. simpl. rewrite seedRow_lookup by done.
    do 3 f_equal. lia.
  - unfold cell in *. simpl. rewrite IH by lia.
    do 3 f_equal. lia.
Qed.

(** ** The controller *)

Lemma gameLoop_stopped (s : State) :
  isRunning s = false -> gameLoop s = (Normal tt, s).
Proof. intros H. unfold gameLoop, bind, gets. by rewrite H. Qed.

Lemma gameLoop_running (s : State) :
  isRunning s = true -> gameLoop s = (Normal tt, tick s).
Proof.
  intros H. unfold gameLoop. erewrite bind_Normal by reflexivity. rewrite H.
  erewrite bind_Normal by apply update_spec.
  erewrite bind_Normal by apply draw_spec.
  unfold setTimeout_gameLoop, modify, tick.
  rewrite !log_log. cbn [grid set_grid log canvas_width canvas_height timers].
  by rewrite set_grid_log, log_log.
Qed.

Lemma toggle_running (s : State) :
  isRunning s = true -> toggle s = (Normal tt, set_isRunning false s).
Proof. intros H. unfold toggle, bind, gets, modify. by rewrite H. Qed.

Lemma toggle_stopped (s : State) :
  isRunning s = false ->
  toggle s = (Normal tt, tick (set_isRunning true s)).
Proof.
  intros H. unfold toggle.
  do 3 (erewrite bind_Normal by reflexivity). rewrite H. cbn [negb].
  by apply gameLoop_running.
Qed.

Lemma reset_spec (s : State) :
  validViewport s -> reset s = (Normal tt, afterReset s).
Proof.
  intros Hv. unfold reset.
  erewrite bind_Normal by reflexivity.
  erewrite bind_Normal by (by apply initGrid_spec).
  by rewrite draw_spec.
Qed.

Lemma set_timers_same (s : State) : set_timers (timers s) s = s.
Proof. by destruct s. Qed.

Lemma frame_stopped (s : State) :
  isRunning s = false -> exec s Frame = set_timers (timers s - 1) s.
Proof.
  intros H. unfold exec, handle.
  erewrite bind_Normal by reflexivity.
  destruct (timers s) as [|k] eqn:Et.
  - simpl. by rewrite <- Et, set_timers_same.
  - erewrite bind_Normal by reflexivity.
    rewrite gameLoop_stopped by done. simpl. by rewrite Nat.sub_0_r.
Qed.

Lemma frames_stopped (n : nat) (s : State) :
  isRunning s = false ->
  run (replicate n Frame) s = set_timers (timers s - n) s.
Proof.
  revert s. induction n as [|n IH]; intros s H.
  - simpl. by rewrite Nat.sub_0_r, set_timers_same.
  - cbn [replicate]. unfold run in *. cbn [foldl].
    rewrite frame_stopped by done. rewrite IH by done.
    unfold set_timers; simpl. f_equal. lia.
Qed.

(** ** Shapes of grids *)

Lemma hasDims_rectangular (g : Grid) (rows cols : nat) :
  hasDims g rows cols -> rectangular g.
Proof.
  intros [_ Hf] r1 r2 H1 H2. rewrite Forall_forall in Hf.
  by rewrite (Hf r1 H1), (Hf r2 H2).
Qed.

Lemma rectangular_cell_width (g : Grid) (r c : nat) (alive : bool) :
  rectangular g -> cell g r c = Some alive -> g <> [] /\ 0 < width g.
Proof.
  intros Hrect Hc. unfold cell in Hc.
  destruct (g !! r) as [row|] eqn:Er; [|done].
  destruct g as [|g0 g']; [done|]. split; [done|].
  assert (Hlen : length g0 = length row).
  { apply Hrect; [left|]. by eapply list_elem_of_lookup_2. }
  apply lookup_lt_Some in Hc. unfold width, len. lia.
Qed.

Lemma cell_nextGen (g : Grid) (r c : nat) :
  cell (nextGen g) r c
  = nextCell (liveNeighbors g (Z.of_nat r) (Z.of_nat c)) <$> cell g r c.
Proof.
  unfold cell, nextGen. rewrite list_lookup_imap.
  destruct (g !! r) as [row|]; [|done]. simpl.
  by rewrite list_lookup_imap.
Qed.

Lemma nextCell_true (n : Z) (alive : bool) :
  nextCell n alive = true <-> n = 3 \/ (alive = true /\ n = 2).
Proof.
  unfold nextCell.
  destruct (Z.eqb_spec n 3), (Z.eqb_spec n 2), alive; simpl;
    intuition (congruence || lia).
Qed.

(** ** The claims *)

(** C7, as the script has it.  On a grid with at least one row and a
    first row of at least one cell, [countNeighbors row col] returns, for
    every coordinate of a cell ([0 <= row < rows], [0 <= col < cols]), a
    number between 0 and 8: the number of live cells among the eight
    positions [((row + i + rows) mod rows, (col + j + cols) mod cols)].
    There the sums are small integers (an array has fewer than 2^32
    elements), which the script's numbers hold exactly. *)
Theorem countNeighbors_on_cells (s : State) (row col : Z) :
  0 <= row < len (grid s) -> 0 <= col < width (grid s) ->
  exists n : Z,
    fst (countNeighbors row col s) = Normal n
    /\ 0 <= n <= 8
    /\ n = torusNeighbors (grid s) row col.
Proof.
  intros Hrow Hcol. exists (liveNeighbors (grid s) row col).
  assert (Hg : grid s <> []).
  { intros E. rewrite E in Hrow. unfold len in Hrow. simpl in Hrow. lia. }
  rewrite countNeighbors_spec by (done || lia). split; [done|].
  split; [apply liveNeighbors_bounds|apply liveNeighbors_torus; done || lia].
Qed.

Lemma countNeighbors_on_cells_witness :
  exists n : Z,
    fst (countNeighbors 2 1 (gameWith true blinker)) = Normal n
    /\ 0 <= n <= 8
    /\ n = torusNeighbors blinker 2 1.
Proof.
  apply (countNeighbors_on_cells (gameWith true blinker) 2 1); by vm_compute.
Defined.

(** C7 as stated fails off the grid: the script adds the dimension once
    and takes [%], which keeps the sign of a negative sum.  On the 3 by 3
    grid [countNeighbors (-5) 0] reads row [-2], which is [undefined], and
    throws; on the 5 by 5 blinker [countNeighbors 2 (-7)] reads columns
    [-3], [-2] and [-1] and returns 0, where the wrapped positions hold
    three live cells. *)
Lemma countNeighbors_off_the_grid :
  (0 < len corner33 /\ 0 < width corner33
   /\ fst (countNeighbors (-5) 0 (gameWith true corner33)) = Throw TypeError)
  /\ (0 < len blinker /\ 0 < width blinker
      /\ fst (countNeighbors 2 (-7) (gameWith true blinker)) = Normal 0
      /\ torusNeighbors blinker 2 (-7) = 3).
Proof. by vm_compute. Qed.

(** C8. In the 3 by 3 grid whose only live cell is (0, 0),
    [countNeighbors 2 2] returns 1: the offset (1, 1) wraps to row 0 and
    column 0, and no other offset reaches a live cell. *)
Theorem countNeighbors_corner_wraps (s : State) :
  fst (countNeighbors 2 2 (set_grid corner33 s)) = Normal 1
  /\ js_rem (2 + 1 + len corner33) (len corner33) = Int 0
  /\ List.filter (neighborAlive corner33 2 2) offsets = [(1, 1)].
Proof.
  split; [|by split].
  by rewrite countNeighbors_spec.
Qed.

(** C2. For every rectangular grid and every cell of it, the cell is alive
    after [update] exactly when its neighbour count [n] in the prior grid
    is 3, or it was alive and [n] is 2. *)
Theorem update_is_conway (s : State) (r c : nat) (alive : bool) :
  rectangular (grid s) -> cell (grid s) r c = Some alive ->
  exists (n : Z) (alive' : bool),
    fst (countNeighbors (Z.of_nat r) (Z.of_nat c) s) = Normal n
    /\ n = torusNeighbors (grid s) (Z.of_nat r) (Z.of_nat c)
    /\ fst (update s) = Normal tt
    /\ cell (grid (snd (update s))) r c = Some alive'
    /\ (alive' = true <-> n = 3 \/ (alive = true /\ n = 2)).
Proof.
  intros Hrect Hc.
  destruct (rectangular_cell_width _ _ _ _ Hrect Hc) as [Hg Hw].
  exists (liveNeighbors (grid s) (Z.of_nat r) (Z.of_nat c)).
  exists (nextCell (liveNeighbors (grid s) (Z.of_nat r) (Z.of_nat c)) alive).
  rewrite countNeighbors_spec by (done || lia).
  rewrite update_spec. cbn [fst snd grid set_grid].
  rewrite cell_nextGen, Hc.
  repeat split; try done.
  - apply liveNeighbors_torus; done || lia.
  - apply nextCell_true.
  - apply nextCell_true.
Qed.

Lemma update_is_conway_witness :
  exists (n : Z) (alive' : bool),
    fst (countNeighbors 2 1 (gameWith true blinker)) = Normal n
    /\ n = torusNeighbors blinker 2 1
    /\ fst (update (gameWith true blinker)) = Normal tt
    /\ cell (grid (snd (update (gameWith true blinker)))) 2 1 = Some alive'
    /\ (alive' = true <-> n = 3 \/ (false = true /\ n = 2)).
Proof.
  apply (update_is_conway (gameWith true blinker) 2 1 false); [|reflexivity].
  apply (hasDims_rectangular blinker 5 5).
  split; [reflexivity|]. repeat constructor.
Defined.

(** ** Traversal orders *)

Lemma cell_writeCell (buf : Grid) (r c r' c' : nat) (b : bool) :
  cell (writeCell buf r c b) r' c'
  = (fun old => if decide ((r, c) = (r', c')) then b else old)
      <$> cell buf r' c'.
Proof.
  unfold cell, writeCell. rewrite list_lookup_alter.
  destruct (decide (r = r')) as [->|Hr].
  - destruct (buf !! r') as [row|]; [|done]. simpl.
    rewrite list_lookup_insert.
    destruct (decide (c = c' /\ (c < length row)%nat)) as [[-> Hlt]|Hn].
    + apply lookup_lt_is_Some in Hlt as [old ->]. simpl.
      by rewrite decide_True.
    + destruct (row !! c') as [old|] eqn:Ec; [|done]. simpl.
      rewrite decide_False; [done|]. intros [= ->].
      apply Hn. split; [done|]. by eapply lookup_lt_Some.
  - destruct (buf !! r') as [row|]; [|done].
    destruct (row !! c') as [old|]; [|done]. simpl.
    rewrite decide_False; [done|]. by intros [= -> _].
Qed.

Lemma length_visits (snapshot : Grid) (order : list (nat * nat)) (buf : Grid) :
  length (foldl (visit snapshot) buf order) = length buf.
Proof.
  revert buf. induction order as [|rc order IH]; intros buf; [done|].
  simpl. rewrite IH. apply length_alter.
Qed.

Lemma cell_visits (snapshot : Grid) (order : list (nat * nat)) (buf : Grid)
    (r c : nat) :
  cell (foldl (visit snapshot) buf order) r c
  = (fun old => if decide ((r, c) ∈ order) then newState snapshot r c else old)
      <$> cell buf r c.
Proof.
  revert buf. induction order as [|[r0 c0] order IH]; intros buf.
  - simpl. by destruct (cell buf r c).
  - simpl. rewrite IH. unfold visit at 1. cbn [fst snd]. rewrite cell_writeCell.
    destruct (cell buf r c) as [old|]; [|done]. simpl. f_equal.
    destruct (decide ((r0, c0) = (r, c))) as [[= -> ->]|Hne].
    + rewrite (decide_True (P := (r, c) ∈ (r, c) :: order)) by left.
      by destruct (decide ((r, c) ∈ order)).
    + destruct (decide ((r, c) ∈ order)) as [Hin|Hnin].
      * by rewrite decide_True by (by right).
      * rewrite decide_False; [done|].
        intros [E|?]%elem_of_cons; [by apply Hne|done].
Qed.

Lemma grid_ext (g1 g2 : Grid) :
  length g1 = length g2 ->
  (forall r c : nat, cell g1 r c = cell g2 r c) ->
  g1 = g2.
Proof.
  intros Hlen Hcell. apply list_eq; intros r.
  specialize (fun c => Hcell r c). unfold cell in Hcell.
  destruct (g1 !! r) as [row1|] eqn:E1, (g2 !! r) as [row2|] eqn:E2.
  - f_equal. by apply list_eq.
  - apply lookup_lt_Some in E1. apply lookup_ge_None in E2. lia.
  - apply lookup_ge_None in E1. apply lookup_lt_Some in E2. lia.
  - done.
Qed.

Lemma stepInOrder_covering (order : list (nat * nat)) (g : Grid) :
  (forall r c : nat, is_Some (cell g r c) -> (r, c) ∈ order) ->
  stepInOrder order g = nextGen g.
Proof.
  intros Hcover. apply grid_ext.
  - unfold stepInOrder. rewrite length_visits.
    unfold nextGen. by rewrite length_imap.
  - intros r c. unfold stepInOrder.
    rewrite cell_visits, cell_nextGen.
    destruct (cell g r c) as [alive|] eqn:Ec; [|done]. simpl.
    rewrite decide_True by (apply Hcover; by rewrite Ec).
    unfold newState. by rewrite Ec.
Qed.

Lemma rowMajor_elem (rows cols r c : nat) :
  (r, c) ∈ rowMajor rows cols <-> (r < rows)%nat /\ (c < cols)%nat.
Proof.
  unfold rowMajor. rewrite list_elem_of_bind. split.
  - intros (r' & Hin & Hr). apply list_elem_of_bind in Hin as (c' & Hin & Hc).
    apply list_elem_of_singleton in Hin as [= -> ->].
    apply elem_of_seq in Hr, Hc. lia.
  - intros [Hr Hc]. exists r. split; [|apply elem_of_seq; lia].
    apply list_elem_of_bind. exists c. split; [by left|apply elem_of_seq; lia].
Qed.

Lemma columnMajor_elem (rows cols r c : nat) :
  (r, c) ∈ columnMajor rows cols <-> (r < rows)%nat /\ (c < cols)%nat.
Proof.
  unfold columnMajor. rewrite list_elem_of_bind. split.
  - intros (c' & Hin & Hc). apply list_elem_of_bind in Hin as (r' & Hin & Hr).
    apply list_elem_of_singleton in Hin as [= -> ->].
    apply elem_of_seq in Hr, Hc. lia.
  - intros [Hr Hc]. exists c. split; [|apply elem_of_seq; lia].
    apply list_elem_of_bind. exists r. split; [by left|apply elem_of_seq; lia].
Qed.

Lemma hasDims_cell (g : Grid) (rows cols r c : nat) :
  hasDims g rows cols -> is_Some (cell g r c) ->
  (r < rows)%nat /\ (c < cols)%nat.
Proof.
  intros [Hl Hf] [alive Hc]. unfold cell in Hc.
  destruct (g !! r) as [row|] eqn:Er; [|done].
  rewrite Forall_forall in Hf.
  pose proof (Hf row (list_elem_of_lookup_2 _ _ _ Er)) as Hrow.
  apply lookup_lt_Some in Er, Hc. lia.
Qed.

(** C3. [update] computes every cell from the prior generation alone: the
    grid it leaves is the one any traversal of the cells leaves that writes
    each new state from the snapshot, whatever the order of the visits, as
    long as every cell is visited. *)
Theorem update_order_independent (s : State) (order : list (nat * nat)) :
  (forall r c : nat, is_Some (cell (grid s) r c) -> (r, c) ∈ order) ->
  fst (update s) = Normal tt
  /\ grid (snd (update s)) = stepInOrder order (grid s)
  /\ forall r c : nat,
       cell (grid (snd (update s))) r c
       = nextCell (liveNeighbors (grid s) (Z.of_nat r) (Z.of_nat c))
           <$> cell (grid s) r c.
Proof.
  intros Hcover. rewrite update_spec. cbn [fst snd grid set_grid].
  split; [done|]. split.
  - by rewrite stepInOrder_covering.
  - intros r c. apply cell_nextGen.
Qed.

(** Row by row and column by column, in particular. *)
Lemma update_row_major_column_major (s : State) (rows cols : nat) :
  hasDims (grid s) rows cols ->
  grid (snd (update s)) = stepInOrder (rowMajor rows cols) (grid s)
  /\ grid (snd (update s)) = stepInOrder (columnMajor rows cols) (grid s).
Proof.
  intros Hd. rewrite update_grid. split.
  - symmetry. apply stepInOrder_covering. intros r c Hc.
    apply rowMajor_elem. by eapply hasDims_cell.
  - symmetry. apply stepInOrder_covering. intros r c Hc.
    apply columnMajor_elem. by eapply hasDims_cell.
Qed.

(** A step in place is another function: row by row it kills the blinker
    that [update] turns. *)
Lemma stepInPlace_differs :
  stepInPlace (rowMajor 5 5) blinker
  <> grid (snd (update (gameWith true blinker))).
Proof. rewrite update_spec. by vm_compute. Qed.

Lemma update_order_independent_witness :
  fst (update (gameWith true blinker)) = Normal tt
  /\ grid (snd (update (gameWith true blinker)))
     = stepInOrder (columnMajor 5 5) blinker
  /\ forall r c : nat,
       cell (grid (snd (update (gameWith true blinker)))) r c
       = nextCell (liveNeighbors blinker (Z.of_nat r) (Z.of_nat c))
           <$> cell blinker r c.
Proof.
  apply (update_order_independent (gameWith true blinker) (columnMajor 5 5)).
  intros r c Hc. apply columnMajor_elem.
  apply (hasDims_cell blinker); [|exact Hc].
  split; [reflexivity|]. repeat constructor.
Defined.

(** ** Every path of initGrid *)

Lemma Array_fill_invalid (n : Z) (s : State) :
  ~ 0 <= n <= MAX_ARRAY_LENGTH ->
  Array_fill n s = (Throw RangeError, s).
Proof.
  intros Hn. unfold Array_fill.
  destruct (Z.ltb_spec n 0); [done|].
  destruct (Z.ltb_spec MAX_ARRAY_LENGTH n); [done|]. lia.
Qed.

(** [initGrid] either throws and leaves the state as it was, or assigns a
    seeded grid. *)
Lemma initGrid_cases (s : State) :
  initGrid s = (Throw RangeError, s)
  \/ exists rows cols : nat,
       initGrid s
       = (Normal tt,
          set_grid (seedGrid (entropy s) (draws s) rows cols)
            (set_draws (draws s + rows * cols) s)).
Proof.
  destruct (decide (0 <= innerHeight s / CELL_SIZE <= MAX_ARRAY_LENGTH))
    as [Hrows|Hrows].
  - destruct (decide (0 <= innerWidth s / CELL_SIZE <= MAX_ARRAY_LENGTH))
      as [Hcols|Hcols].
    + right. exists (viewRows s), (viewCols s). by apply initGrid_spec.
    + unfold initGrid, calculateGridDimensions.
      erewrite bind_Normal by reflexivity. cbn [fst snd].
      erewrite bind_Normal by (by apply Array_fill_spec).
      destruct (Z.to_nat (innerHeight s / CELL_SIZE)) as [|n].
      * right. exists 0%nat, 0%nat. cbn.
        unfold bind, ret, modify; cbn.
        by rewrite Nat.add_0_r, set_draws_same.
      * left. cbn [replicate]. unfold Array_map. cbn [map_from].
        erewrite bind_Throw; [reflexivity|].
        erewrite bind_Throw; [reflexivity|].
        erewrite bind_Throw; [reflexivity|].
        by apply Array_fill_invalid.
  - left. unfold initGrid, calculateGridDimensions.
    erewrite bind_Normal by reflexivity. cbn [fst snd].
    erewrite bind_Throw; [reflexivity|]. by apply Array_fill_invalid.
Qed.

Lemma nextGen_hasDims (g : Grid) (rows cols : nat) :
  hasDims g rows cols -> hasDims (nextGen g) rows cols.
Proof.
  intros [Hl Hf]. unfold nextGen. split; [by rewrite length_imap|].
  rewrite Forall_lookup in Hf |- *. intros i row' Hi.
  rewrite list_lookup_imap in Hi.
  destruct (g !! i) as [row|] eqn:Er; [|done].
  injection Hi as <-. rewrite length_imap. by eapply Hf.
Qed.

Lemma nextGen_rectangular (g : Grid) : rectangular g -> rectangular (nextGen g).
Proof.
  assert (Hrow : forall r', r' ∈ nextGen g ->
            exists r, r ∈ g /\ length r' = length r).
  { intros r' [i Hi]%list_elem_of_lookup. unfold nextGen in Hi.
    rewrite list_lookup_imap in Hi.
    destruct (g !! i) as [row|] eqn:Er; [|done]. injection Hi as <-.
    exists row. split; [by eapply list_elem_of_lookup_2|by rewrite length_imap]. }
  intros Hrect r1 r2 H1 H2.
  destruct (Hrow r1 H1) as (q1 & Hq1 & ->).
  destruct (Hrow r2 H2) as (q2 & Hq2 & ->).
  by apply Hrect.
Qed.

Lemma initGrid_rectangular (s : State) :
  rectangular (grid s) -> rectangular (grid (snd (initGrid s))).
Proof.
  intros Hrect. destruct (initGrid_cases s) as [->|(rows & cols & ->)];
    [done|].
  eapply hasDims_rectangular, seedGrid_hasDims.
Qed.

Lemma grid_then_draw (m : JS unit) (s : State) :
  grid (snd ((m ;; draw) s)) = grid (snd (m s)).
Proof.
  unfold bind. destruct (m s) as [[[]|e] s']; [|done].
  by rewrite draw_spec.
Qed.

Lemma tick_rectangular (s : State) :
  rectangular (grid s) -> rectangular (grid (tick s)).
Proof. apply nextGen_rectangular. Qed.

Lemma gameLoop_rectangular (s : State) :
  rectangular (grid s) -> rectangular (grid (snd (gameLoop s))).
Proof.
  intros Hrect. destruct (isRunning s) eqn:E.
  - rewrite gameLoop_running by done. by apply tick_rectangular.
  - by rewrite gameLoop_stopped.
Qed.

Lemma exec_rectangular (s : State) (a : Action) :
  rectangular (grid s) -> rectangular (grid (exec s a)).
Proof.
  intros Hrect. unfold exec. destruct a as [| |w h|]; cbn [handle].
  - destruct (isRunning s) eqn:E.
    + by rewrite toggle_running.
    + rewrite toggle_stopped by done. by apply tick_rectangular.
  - unfold reset. erewrite bind_Normal by reflexivity.
    rewrite grid_then_draw. by apply initGrid_rectangular.
  - unfold initializeCanvas.
    do 5 (erewrite bind_Normal by reflexivity).
    by apply initGrid_rectangular.
  - erewrite bind_Normal by reflexivity.
    destruct (timers s) as [|k]; [done|].
    erewrite bind_Normal by reflexivity. by apply gameLoop_rectangular.
Qed.

Lemma run_rectangular (acts : list Action) (s : State) :
  rectangular (grid s) -> rectangular (grid (run acts s)).
Proof.
  revert s. induction acts as [|a acts IH]; intros s Hrect; [done|].
  apply IH. by apply exec_rectangular.
Qed.

Lemma boot_rectangular (w h : Z) (rnd : nat -> Q) :
  rectangular (grid (boot w h rnd)).
Proof.
  unfold boot. rewrite grid_then_draw. unfold constructor, initializeCanvas.
  do 6 (erewrite bind_Normal by reflexivity).
  apply initGrid_rectangular. intros r1 r2 H1. by apply elem_of_nil in H1.
Qed.

Lemma validViewport_set_window (w h : Z) (s : State) :
  0 <= h / CELL_SIZE <= MAX_ARRAY_LENGTH ->
  0 <= w / CELL_SIZE <= MAX_ARRAY_LENGTH ->
  validViewport (set_window w h s).
Proof. by split. Qed.

Lemma resize_spec (w h : Z) (s : State) :
  0 <= h / CELL_SIZE <= MAX_ARRAY_LENGTH ->
  0 <= w / CELL_SIZE <= MAX_ARRAY_LENGTH ->
  grid (exec s (Resize w h))
  = seedGrid (entropy s) (draws s)
      (Z.to_nat (h / CELL_SIZE)) (Z.to_nat (w / CELL_SIZE)).
Proof.
  intros Hh Hw. unfold exec. cbn [handle]. unfold initializeCanvas.
  do 5 (erewrite bind_Normal by reflexivity).
  by rewrite initGrid_spec by (by split).
Qed.

(** C9. [initGrid], [reset] and a resize leave a grid of [rows] rows of
    [cols] cells each, [rows] and [cols] those of the window; [update] keeps
    the number of rows and the length of the rows; and whatever happens to
    the page, all rows of the grid have the same length. *)
Theorem grid_always_rectangular :
  (forall s : State, validViewport s ->
     hasDims (grid (snd (initGrid s))) (viewRows s) (viewCols s))
  /\ (forall (s : State) (rows cols : nat),
        hasDims (grid s) rows cols ->
        hasDims (grid (snd (update s))) rows cols)
  /\ (forall s : State, validViewport s ->
        hasDims (grid (snd (reset s))) (viewRows s) (viewCols s))
  /\ (forall (s : State) (w h : Z),
        0 <= h / CELL_SIZE <= MAX_ARRAY_LENGTH ->
        0 <= w / CELL_SIZE <= MAX_ARRAY_LENGTH ->
        hasDims (grid (exec s (Resize w h)))
                (Z.to_nat (h / CELL_SIZE)) (Z.to_nat (w / CELL_SIZE)))
  /\ (forall (w h : Z) (rnd : nat -> Q) (acts : list Action),
        rectangular (grid (run acts (boot w h rnd)))).
Proof.
  split; [|split; [|split; [|split]]].
  - intros s Hv. rewrite initGrid_spec by done. apply seedGrid_hasDims.
  - intros s rows cols Hd. rewrite update_grid. by apply nextGen_hasDims.
  - intros s Hv. rewrite reset_spec by done. apply seedGrid_hasDims.
  - intros s w h Hh Hw. rewrite resize_spec by done. apply seedGrid_hasDims.
  - intros w h rnd acts. apply run_rectangular, boot_rectangular.
Qed.

Lemma grid_always_rectangular_witness :
  hasDims (grid (snd (initGrid (page 100 10 decileDraws)))) 1 10
  /\ hasDims (grid (snd (update (gameWith true blinker)))) 5 5
  /\ hasDims (grid (snd (reset (page 100 10 decileDraws)))) 1 10
  /\ hasDims (grid (exec (gameWith true blinker) (Resize 35 29))) 2 3
  /\ rectangular
       (grid (run [ToggleGame; Frame; Resize 35 29; Frame; ResetGame]
                  (boot 50 50 decileDraws))).
Proof.
  destruct grid_always_rectangular as (Hinit & Hupd & Hreset & Hresize & Hrun).
  split; [apply (Hinit (page 100 10 decileDraws)); by vm_compute|].
  split; [apply (Hupd (gameWith true blinker) 5%nat 5%nat);
          split; [reflexivity|repeat constructor]|].
  split; [apply (Hreset (page 100 10 decileDraws)); by vm_compute|].
  split; [apply (Hresize (gameWith true blinker) 35 29); by vm_compute|].
  apply (Hrun 50 50 decileDraws).
Defined.

(** ** The empty grid *)

Lemma set_grid_same (s : State) : set_grid (grid s) s = s.
Proof. by destruct s. Qed.

Lemma update_empty (s : State) : grid s = [] -> update s = (Normal tt, s).
Proof.
  intros E. rewrite update_spec, E. cbn. by rewrite log_nil, <- E, set_grid_same.
Qed.

Lemma draw_empty (s : State) :
  grid s = [] ->
  draw s
  = (Normal tt, log [ClearRect 0 0 (canvas_width s) (canvas_height s)] s).
Proof. intros E. by rewrite draw_spec, E. Qed.

Lemma countNeighbors_empty (s : State) (row col : Z) :
  grid s = [] ->
  countNeighbors row col s
  = (Throw TypeError, log [Call_countNeighbors row col] s).
Proof.
  intros E. unfold countNeighbors.
  erewrite bind_Normal by reflexivity. cbn [for_of].
  erewrite bind_Throw; [reflexivity|].
  erewrite bind_Throw; [reflexivity|].
  unfold countNeighbors_body. cbn [Z.eqb andb].
  erewrite bind_Normal by reflexivity.
  erewrite bind_Throw; [reflexivity|].
  cbn [grid log]. by rewrite E.
Qed.

Lemma small_viewport (s : State) :
  0 <= innerHeight s < CELL_SIZE -> 0 <= innerWidth s < CELL_SIZE ->
  validViewport s /\ viewRows s = 0%nat /\ viewCols s = 0%nat.
Proof.
  intros Hh Hw. unfold validViewport, viewRows, viewCols.
  rewrite (Z.div_small (innerHeight s)), (Z.div_small (innerWidth s)) by done.
  by vm_compute.
Qed.

(** C10. When the window is smaller than a cell in both directions,
    [initGrid] leaves the empty grid and [reset] completes, drawing nothing
    but the cleared canvas.  On the empty grid [update] completes and
    changes nothing, [draw] completes after its [clearRect], and neither
    calls [countNeighbors], which would throw there. *)
Theorem empty_grid_is_safe (s : State) :
  0 <= innerHeight s < CELL_SIZE -> 0 <= innerWidth s < CELL_SIZE ->
  initGrid s = (Normal tt, set_grid [] s)
  /\ reset s
     = (Normal tt,
        log [ClearRect 0 0 (canvas_width s) (canvas_height s)]
          (set_grid [] (set_isRunning false s)))
  /\ (let s0 := set_grid [] s in
      update s0 = (Normal tt, s0)
      /\ draw s0
         = (Normal tt,
            log [ClearRect 0 0 (canvas_width s) (canvas_height s)] s0)
      /\ (forall row col : Z,
            (Call_countNeighbors row col ∉ trace s) ->
            (Call_countNeighbors row col ∉ trace (snd (update s0)))
            /\ (Call_countNeighbors row col ∉ trace (snd (draw s0))))
      /\ forall row col : Z,
           fst (countNeighbors row col s0) = Throw TypeError).
Proof.
  intros Hh Hw. destruct (small_viewport s Hh Hw) as (Hv & Hr & Hc).
  split; [|split].
  - rewrite initGrid_spec by done. rewrite Hr, Hc. cbn [seedGrid].
    by rewrite Nat.add_0_r, set_draws_same.
  - rewrite reset_spec by done. unfold afterReset. rewrite Hr, Hc.
    cbn [seedGrid]. rewrite Nat.add_0_r.
    by destruct s.
  - cbn zeta. rewrite update_empty, draw_empty by done.
    split; [done|]. split; [done|]. split.
    + intros row col Hnot. split; [done|]. cbn.
      intros [?|Hin]%elem_of_app; [done|].
      by apply list_elem_of_singleton in Hin.
    + intros row col. by rewrite countNeighbors_empty.
Qed.

Lemma empty_grid_is_safe_witness :
  initGrid (page 7 9 decileDraws)
  = (Normal tt, set_grid [] (page 7 9 decileDraws))
  /\ reset (page 7 9 decileDraws)
     = (Normal tt,
        log [ClearRect 0 0 300 150]
          (set_grid [] (set_isRunning false (page 7 9 decileDraws))))
  /\ (let s0 := set_grid [] (page 7 9 decileDraws) in
      update s0 = (Normal tt, s0)
      /\ draw s0 = (Normal tt, log [ClearRect 0 0 300 150] s0)
      /\ (forall row col : Z,
            (Call_countNeighbors row col ∉ trace (page 7 9 decileDraws)) ->
            (Call_countNeighbors row col ∉ trace (snd (update s0)))
            /\ (Call_countNeighbors row col ∉ trace (snd (draw s0))))
      /\ forall row col : Z,
           fst (countNeighbors row col s0) = Throw TypeError).
Proof.
  apply (empty_grid_is_safe (page 7 9 decileDraws)); by vm_compute.
Defined.

(** ** reset *)

(** C6. After [reset] the flag is false; the grid has
    [floor (innerHeight / CELL_SIZE)] rows of [floor (innerWidth / CELL_SIZE)]
    cells, each seeded from its own draw of [Math.random] against
    [INITIAL_ALIVE_PROBABILITY]; the calls made are exactly one render of
    that grid; and no call of [gameLoop] has been scheduled. *)
Theorem reset_stops_and_reseeds (s : State) :
  validViewport s ->
  let s' := snd (reset s) in
  fst (reset s) = Normal tt
  /\ isRunning s' = false
  /\ len (grid s') = innerHeight s / CELL_SIZE
  /\ Forall (fun row : list bool => len row = innerWidth s / CELL_SIZE)
            (grid s')
  /\ (forall i j : nat, (i < viewRows s)%nat -> (j < viewCols s)%nat ->
        cell (grid s') i j
        = Some (gt (entropy s (draws s + i * viewCols s + j)%nat)
                   INITIAL_ALIVE_PROBABILITY))
  /\ trace s'
     = trace s ++ render (canvas_width s) (canvas_height s) (grid s')
  /\ timers s' = timers s.
Proof.
  intros Hv. cbn zeta. rewrite reset_spec by done.
  unfold afterReset. cbn [fst snd isRunning grid trace timers log set_grid].
  destruct Hv as [Hrows Hcols].
  destruct (seedGrid_hasDims (entropy s) (draws s) (viewRows s) (viewCols s))
    as [Hl Hf].
  repeat split; try done.
  - unfold len. rewrite Hl. unfold viewRows. lia.
  - eapply Forall_impl; [exact Hf|]. intros row Hrow. simpl in Hrow.
    unfold len. rewrite Hrow. unfold viewCols. lia.
  - intros i j Hi Hj. by apply seedGrid_cell.
Qed.

Lemma reset_stops_and_reseeds_witness :
  let s := set_timers 1 (gameWith true blinker) in
  let s' := snd (reset (set_window 35 29 s)) in
  fst (reset (set_window 35 29 s)) = Normal tt
  /\ isRunning s' = false
  /\ len (grid s') = 29 / CELL_SIZE
  /\ Forall (fun row : list bool => len row = 35 / CELL_SIZE) (grid s')
  /\ (forall i j : nat, (i < 2)%nat -> (j < 3)%nat ->
        cell (grid s') i j
        = Some (gt (entropy s (draws s + i * 3 + j)%nat)
                   INITIAL_ALIVE_PROBABILITY))
  /\ trace s' = trace s ++ render 0 0 (grid s')
  /\ timers s' = 1%nat.
Proof.
  apply (reset_stops_and_reseeds
           (set_window 35 29 (set_timers 1 (gameWith true blinker)))).
  by vm_compute.
Defined.

(** ** toggle *)

(** C4, as the script has it.  There is no [start] and no [stop]: the one
    control, [toggle], flips the flag every time.  On a running game it
    only clears the flag: the grid, the calls made and the scheduled calls
    stay.  On a stopped game it sets the flag and runs the loop body once:
    the next generation, one render, one scheduled call. *)
Theorem toggle_always_flips (s : State) :
  isRunning (snd (toggle s)) = negb (isRunning s)
  /\ (isRunning s = true ->
      toggle s = (Normal tt, set_isRunning false s))
  /\ (isRunning s = false ->
      let s' := snd (toggle s) in
      fst (toggle s) = Normal tt
      /\ grid s' = nextGen (grid s)
      /\ timers s' = S (timers s)
      /\ trace s'
         = trace s
           ++ updateCalls (grid s)
           ++ render (canvas_width s) (canvas_height s) (nextGen (grid s))
           ++ [SetTimeout FRAME_DELAY]).
Proof.
  split; [|split].
  - destruct (isRunning s) eqn:E.
    + by rewrite toggle_running.
    + by rewrite toggle_stopped.
  - apply toggle_running.
  - intros E. cbn zeta. by rewrite toggle_stopped.
Qed.

Lemma toggle_always_flips_witness :
  toggle (gameWith true corner33)
  = (Normal tt, set_isRunning false (gameWith true corner33))
  /\ grid (snd (toggle (gameWith false blinker))) = nextGen blinker.
Proof.
  split.
  - by apply (toggle_always_flips (gameWith true corner33)).
  - by apply (toggle_always_flips (gameWith false blinker)).
Defined.

(** C4 as stated fails both ways: with [toggle] for [start] on a running
    game the flag changes, and with [toggle] for [stop] on a stopped game
    the flag and the grid change and a call is scheduled. *)
Lemma toggle_is_no_noop :
  ~ (forall s : State, isRunning s = true ->
       isRunning (snd (toggle s)) = isRunning s
       /\ grid (snd (toggle s)) = grid s
       /\ timers (snd (toggle s)) = timers s)
  /\ ~ (forall s : State, isRunning s = false ->
          isRunning (snd (toggle s)) = isRunning s
          /\ grid (snd (toggle s)) = grid s
          /\ timers (snd (toggle s)) = timers s).
Proof.
  split.
  - intros H. by destruct (H (gameWith true blinker) eq_refl) as [? _].
  - intros H. by destruct (H (gameWith false blinker) eq_refl) as [? _].
Qed.

(** ** The loop once the flag is false *)

Lemma initGrid_frame (s : State) :
  isRunning (snd (initGrid s)) = isRunning s
  /\ timers (snd (initGrid s)) = timers s
  /\ trace (snd (initGrid s)) = trace s.
Proof. by destruct (initGrid_cases s) as [->|(rows & cols & ->)]. Qed.

Lemma then_draw_frame (m : JS unit) (s : State) :
  isRunning (snd ((m ;; draw) s)) = isRunning (snd (m s))
  /\ timers (snd ((m ;; draw) s)) = timers (snd (m s)).
Proof.
  unfold bind. destruct (m s) as [[[]|e] s']; [|done].
  by rewrite draw_spec.
Qed.

Lemma exec_stopped (s : State) (a : Action) :
  isRunning s = false -> a <> ToggleGame ->
  isRunning (exec s a) = false /\ (timers (exec s a) <= timers s)%nat.
Proof.
  intros E Ha. destruct a as [| |w h|]; [done| | |].
  - unfold exec. cbn [handle]. unfold reset.
    erewrite bind_Normal by reflexivity.
    destruct (then_draw_frame initGrid (set_isRunning false s)) as [-> ->].
    destruct (initGrid_frame (set_isRunning false s)) as (-> & -> & _).
    by split.
  - unfold exec. cbn [handle]. unfold initializeCanvas.
    do 5 (erewrite bind_Normal by reflexivity).
    match goal with |- context [initGrid ?s1] =>
      destruct (initGrid_frame s1) as (-> & -> & _) end.
    by split.
  - rewrite frame_stopped by done. split; [done|]. cbn. lia.
Qed.

Lemma run_stopped (acts : list Action) (s : State) :
  isRunning s = false -> ToggleGame ∉ acts ->
  isRunning (run acts s) = false /\ (timers (run acts s) <= timers s)%nat.
Proof.
  revert s. induction acts as [|a acts IH]; intros s E Hno; [by split|].
  apply not_elem_of_cons in Hno as [Ha Hno].
  destruct (exec_stopped s a E) as [E1 Ht1]; [done|].
  destruct (IH (exec s a) E1 Hno) as [E2 Ht2].
  split; [done|]. unfold run in *. cbn [foldl]. lia.
Qed.

(** C5. [toggle] on a running game leaves the flag false.  With the flag
    false, a call of [gameLoop] returns at once and leaves everything as it
    was; so any number of scheduled calls coming due change neither the
    grid nor the flag, make no call (no [countNeighbors], no canvas call, no
    [setTimeout]) and only use up the scheduled calls.  Until the next
    [toggle] the flag stays false and nothing is scheduled, whatever else
    happens to the page. *)
Theorem no_step_while_stopped :
  (forall s : State, isRunning s = true ->
     isRunning (exec s ToggleGame) = false)
  /\ (forall s : State, isRunning s = false ->
        gameLoop s = (Normal tt, s))
  /\ (forall (s : State) (n : nat), isRunning s = false ->
        run (replicate n Frame) s = set_timers (timers s - n) s)
  /\ (forall (s : State) (acts : list Action),
        isRunning s = false -> ToggleGame ∉ acts ->
        isRunning (run acts s) = false
        /\ (timers (run acts s) <= timers s)%nat).
Proof.
  split; [|split; [|split]].
  - intros s E. unfold exec. cbn [handle]. by rewrite toggle_running.
  - apply gameLoop_stopped.
  - intros s n E. by apply frames_stopped.
  - intros s acts. apply run_stopped.
Qed.

Lemma no_step_while_stopped_witness :
  let s := tick (tick (gameWith true blinker)) in
  isRunning (exec s ToggleGame) = false
  /\ gameLoop (exec s ToggleGame) = (Normal tt, exec s ToggleGame)
  /\ run [Frame; Frame; Frame] (exec s ToggleGame)
     = set_timers 0 (exec s ToggleGame)
  /\ isRunning (run [Frame; ResetGame; Resize 35 29; Frame]
                    (exec s ToggleGame)) = false
  /\ (timers (run [Frame; ResetGame; Resize 35 29; Frame]
                  (exec s ToggleGame)) <= 2)%nat.
Proof.
  destruct no_step_while_stopped as (Hstop & Hloop & Hframes & Hrun).
  split; [|split; [|split]].
  - by apply (Hstop (tick (tick (gameWith true blinker)))).
  - by apply (Hloop (exec (tick (tick (gameWith true blinker))) ToggleGame)).
  - by apply (Hframes (exec (tick (tick (gameWith true blinker))) ToggleGame)
                3%nat).
  - apply (Hrun (exec (tick (tick (gameWith true blinker))) ToggleGame)
             [Frame; ResetGame; Resize 35 29; Frame]); [done|].
    intros Hin. repeat (apply elem_of_cons in Hin as [?|Hin]; [done|]).
    by apply elem_of_nil in Hin.
Defined.

(** ** The seed *)

Lemma gt_true (u p : Q) : gt u p = true <-> (p < u)%Q.
Proof.
  unfold gt. rewrite negb_true_iff. split.
  - intros H. apply Qnot_le_lt. intros Hle.
    apply Qle_bool_iff in Hle. congruence.
  - intros H. destruct (Qle_bool u p) eqn:E; [|done].
    apply Qle_bool_iff in E. by apply Qlt_not_le in H.
Qed.

(** C1, as the script has it.  [initGrid] makes a cell alive exactly when
    its draw is above [INITIAL_ALIVE_PROBABILITY]: of the draws in [0, 1)
    those in the interval from 0.3 to 1, which is more than 7/10 of them and
    not 3/10.  Of ten draws spread evenly over [0, 1), seven give a live
    cell. *)
Theorem initGrid_alive_above_threshold :
  (forall u : Q,
     gt u INITIAL_ALIVE_PROBABILITY = true
     <-> (INITIAL_ALIVE_PROBABILITY < u)%Q)
  /\ (forall (s : State) (i j : nat),
        validViewport s -> (i < viewRows s)%nat -> (j < viewCols s)%nat ->
        cell (grid (snd (initGrid s))) i j
        = Some (gt (entropy s (draws s + i * viewCols s + j)%nat)
                   INITIAL_ALIVE_PROBABILITY))
  /\ grid (snd (initGrid (page 100 10 decileDraws)))
     = [[false; false; false; true; true; true; true; true; true; true]]
  /\ (INITIAL_ALIVE_PROBABILITY < 3 # 10)%Q
  /\ (7 # 10 < 1 - INITIAL_ALIVE_PROBABILITY)%Q.
Proof.
  split; [|split; [|split; [|split]]].
  - intros u. apply gt_true.
  - intros s i j Hv Hi Hj. rewrite initGrid_spec by done.
    by apply seedGrid_cell.
  - by vm_compute.
  - reflexivity.
  - reflexivity.
Qed.

(** ** Sample generations *)

(** The blinker turns, and turns back. *)
Example blinker_turns :
  grid (snd (update (gameWith true blinker)))
  = [[false; false; false; false; false];
     [false; false; false; false; false];
     [false; true; true; true; false];
     [false; false; false; false; false];
     [false; false; false; false; false]]
  /\ grid (snd (update (snd (update (gameWith true blinker))))) = blinker.
Proof. rewrite !update_spec. by vm_compute. Qed.

(** The block stays. *)
Example block_is_still :
  grid (snd (update (gameWith true block))) = block.
Proof. rewrite update_spec. by vm_compute. Qed.

(** A lone cell dies; on the 3 by 3 torus its eight neighbours see it once
    each and stay dead. *)
Example lone_cell_dies :
  grid (snd (update (gameWith true corner33)))
  = [[false; false; false]; [false; false; false]; [false; false; false]].
Proof. rewrite update_spec. by vm_compute. Qed.

(** Stopping and starting again before the scheduled call has come due
    leaves two calls scheduled: the old one and the one of the new start. *)
Example restart_keeps_the_old_call :
  let s := tick (gameWith true blinker) in
  timers s = 1%nat
  /\ timers (run [ToggleGame; ToggleGame] s) = 2%nat
  /\ isRunning (run [ToggleGame; ToggleGame] s) = true.
Proof. by vm_compute. Qed.

(** * Further properties of the script *)

(** ** What initGrid and draw leave alone *)

Lemma initGrid_keeps {A : Type} (f : State -> A) (s : State) :
  (forall (g : Grid) (t : State), f (set_grid g t) = f t) ->
  (forall (n : nat) (t : State), f (set_draws n t) = f t) ->
  f (snd (initGrid s)) = f s.
Proof.
  intros Hg Hd. destruct (initGrid_cases s) as [->|(rows & cols & ->)];
    [done|].
  cbn [snd]. by rewrite Hg, Hd.
Qed.

Lemma then_draw_keeps {A : Type} (f : State -> A) (m : JS unit) (s : State) :
  (forall (evs : list Event) (t : State), f (log evs t) = f t) ->
  f (snd ((m ;; draw) s)) = f (snd (m s)).
Proof.
  intros Hl. unfold bind. destruct (m s) as [[[]|e] s']; [|done].
  rewrite draw_spec. cbn [snd]. apply Hl.
Qed.

Lemma constructor_initGrid (s : State) :
  constructor s
  = initGrid (set_canvas_height (innerHeight s)
                (set_canvas_width (innerWidth s)
                   (set_grid [] (set_isRunning false s)))).
Proof.
  unfold constructor, initializeCanvas.
  by do 6 (erewrite bind_Normal by reflexivity).
Qed.

Lemma resize_initGrid (w h : Z) (s : State) :
  handle (Resize w h) s
  = initGrid (set_canvas_height h (set_canvas_width w (set_window w h s))).
Proof.
  cbn [handle]. unfold initializeCanvas.
  by do 5 (erewrite bind_Normal by reflexivity).
Qed.

Lemma frame_running (s : State) (k : nat) :
  isRunning s = true -> timers s = S k ->
  exec s Frame = tick (set_timers k s).
Proof.
  intros E Et. unfold exec. cbn [handle].
  erewrite bind_Normal by reflexivity. rewrite Et.
  erewrite bind_Normal by reflexivity.
  by rewrite gameLoop_running.
Qed.

(** ** Loading the page, resizing the window *)

(** X1. Loading the page in a window of a valid size leaves a stopped game:
    the canvas has the size of the window, the grid is seeded from the
    first [rows * cols] draws, it has been rendered once, and no call of
    [gameLoop] is scheduled. *)
Theorem page_load (w h : Z) (rnd : nat -> Q) :
  0 <= h / CELL_SIZE <= MAX_ARRAY_LENGTH ->
  0 <= w / CELL_SIZE <= MAX_ARRAY_LENGTH ->
  let s := boot w h rnd in
  let rows := Z.to_nat (h / CELL_SIZE) in
  let cols := Z.to_nat (w / CELL_SIZE) in
  isRunning s = false
  /\ canvas_width s = w /\ canvas_height s = h
  /\ grid s = seedGrid rnd 0 rows cols
  /\ hasDims (grid s) rows cols
  /\ draws s = (rows * cols)%nat
  /\ trace s = render w h (grid s)
  /\ timers s = 0%nat.
Proof.
  intros Hh Hw. cbn zeta. unfold boot.
  erewrite bind_Normal.
  2:{ rewrite constructor_initGrid. apply initGrid_spec. by split. }
  rewrite draw_spec. cbn.
  repeat split; try done. apply seedGrid_hasDims. apply seedGrid_hasDims.
Qed.

Lemma page_load_witness :
  let s := boot 35 29 decileDraws in
  isRunning s = false
  /\ canvas_width s = 35 /\ canvas_height s = 29
  /\ grid s = seedGrid decileDraws 0 2 3
  /\ hasDims (grid s) 2 3
  /\ draws s = 6%nat
  /\ trace s = render 35 29 (grid s)
  /\ timers s = 0%nat.
Proof. apply (page_load 35 29 decileDraws); by vm_compute. Defined.

(** X2. The resize listener sets the canvas to the new size of the window
    and seeds a new grid of that size from the next [rows * cols] draws.
    It leaves the flag and the scheduled calls as they are and makes no
    canvas call: the new grid is not drawn by the resize. *)
Theorem resize_reseeds_without_drawing (s : State) (w h : Z) :
  0 <= h / CELL_SIZE <= MAX_ARRAY_LENGTH ->
  0 <= w / CELL_SIZE <= MAX_ARRAY_LENGTH ->
  let s' := exec s (Resize w h) in
  let rows := Z.to_nat (h / CELL_SIZE) in
  let cols := Z.to_nat (w / CELL_SIZE) in
  fst (handle (Resize w h) s) = Normal tt
  /\ canvas_width s' = w /\ canvas_height s' = h
  /\ grid s' = seedGrid (entropy s) (draws s) rows cols
  /\ draws s' = (draws s + rows * cols)%nat
  /\ isRunning s' = isRunning s
  /\ timers s' = timers s
  /\ trace s' = trace s.
Proof.
  intros Hh Hw. cbn zeta. unfold exec. rewrite resize_initGrid.
  by rewrite initGrid_spec by (by split).
Qed.

Lemma resize_reseeds_without_drawing_witness :
  let s := tick (gameWith true blinker) in
  let s' := exec s (Resize 35 29) in
  fst (handle (Resize 35 29) s) = Normal tt
  /\ canvas_width s' = 35 /\ canvas_height s' = 29
  /\ grid s' = seedGrid (entropy s) (draws s) 2 3
  /\ draws s' = (draws s + 6)%nat
  /\ isRunning s' = isRunning s
  /\ timers s' = timers s
  /\ trace s' = trace s.
Proof.
  apply (resize_reseeds_without_drawing (tick (gameWith true blinker)) 35 29);
    by vm_compute.
Defined.

Lemma exec_canvasFollowsWindow (s : State) (a : Action) :
  canvasFollowsWindow s -> canvasFollowsWindow (exec s a).
Proof.
  intros [Hw Hh]. unfold exec. destruct a as [| |w h|].
  - cbn [handle]. destruct (isRunning s) eqn:E.
    + by rewrite toggle_running.
    + by rewrite toggle_stopped.
  - cbn [handle]. unfold reset. erewrite bind_Normal by reflexivity.
    unfold canvasFollowsWindow.
    rewrite (then_draw_keeps canvas_width), (then_draw_keeps canvas_height),
      (then_draw_keeps innerWidth), (then_draw_keeps innerHeight) by done.
    by rewrite (initGrid_keeps canvas_width), (initGrid_keeps canvas_height),
      (initGrid_keeps innerWidth), (initGrid_keeps innerHeight) by done.
  - rewrite resize_initGrid. unfold canvasFollowsWindow.
    by rewrite (initGrid_keeps canvas_width), (initGrid_keeps canvas_height),
      (initGrid_keeps innerWidth), (initGrid_keeps innerHeight) by done.
  - cbn [handle]. erewrite bind_Normal by reflexivity.
    destruct (timers s) as [|k]; [done|].
    erewrite bind_Normal by reflexivity.
    destruct (isRunning s) eqn:E.
    + by rewrite gameLoop_running.
    + by rewrite gameLoop_stopped.
Qed.

(** X3. From the loading of the page on, whatever is toggled, reset or
    resized and whichever scheduled calls come due, the canvas has the
    size of the window. *)
Theorem canvas_follows_window (w h : Z) (rnd : nat -> Q) (acts : list Action) :
  canvasFollowsWindow (run acts (boot w h rnd)).
Proof.
  assert (Hboot : canvasFollowsWindow (boot w h rnd)).
  { unfold boot, canvasFollowsWindow.
    rewrite (then_draw_keeps canvas_width), (then_draw_keeps canvas_height),
      (then_draw_keeps innerWidth), (then_draw_keeps innerHeight) by done.
    rewrite constructor_initGrid.
    by rewrite (initGrid_keeps canvas_width), (initGrid_keeps canvas_height),
      (initGrid_keeps innerWidth), (initGrid_keeps innerHeight) by done. }
  revert Hboot. generalize (boot w h rnd) as s.
  induction acts as [|a acts IH]; intros s Hs; [done|].
  apply IH. by apply exec_canvasFollowsWindow.
Qed.

(** ** What draw puts on the canvas *)

Lemma Forall_concat_imap {A : Type} (P : Event -> Prop)
    (f : nat -> A -> list Event) (l : list A) :
  (forall (i : nat) (x : A), l !! i = Some x -> Forall P (f i x)) ->
  Forall P (concat (imap f l)).
Proof.
  intros H. apply Forall_concat. apply Forall_lookup. intros i evs Hi.
  rewrite list_lookup_imap in Hi.
  destruct (l !! i) as [x|] eqn:E; [|done]. injection Hi as <-. by apply H.
Qed.

(** A property of all the calls made for live cells holds of all the calls
    of a render after its [clearRect]. *)
Lemma cellPaths_Forall (P : Event -> Prop) (g : Grid) :
  (forall (i j : nat) (row : list bool),
     g !! i = Some row -> row !! j = Some true ->
     Forall P (Call_countNeighbors (Z.of_nat i) (Z.of_nat j)
               :: cellPath (Z.of_nat i) (Z.of_nat j)
                    (liveNeighbors g (Z.of_nat i) (Z.of_nat j)))) ->
  Forall P (cellPaths g).
Proof.
  intros H. unfold cellPaths. apply Forall_concat_imap. intros i row Hi.
  apply Forall_concat_imap. intros j [|] Hj; [by eapply H|constructor].
Qed.

Lemma countEvents_app (p : Event -> bool) (a b : list Event) :
  countEvents p (a ++ b) = (countEvents p a + countEvents p b)%nat.
Proof. unfold countEvents. by rewrite List.filter_app, length_app. Qed.

Lemma countEvents_concat_imap {A : Type} (p : Event -> bool)
    (f : nat -> A -> list Event) (c : A -> nat) (l : list A) :
  (forall (i : nat) (x : A), countEvents p (f i x) = c x) ->
  countEvents p (concat (imap f l)) = sum_list (c <$> l).
Proof.
  revert f. induction l as [|x l IH]; intros f H; [done|].
  rewrite imap_cons. cbn [concat]. rewrite countEvents_app, H.
  rewrite fmap_cons. cbn [sum_list sum_list_with]. f_equal.
  apply IH. intros i y. apply H.
Qed.

Lemma sum_list_live (row : list bool) :
  sum_list ((fun b : bool => if b then 1%nat else 0%nat) <$> row)
  = length (List.filter id row).
Proof.
  induction row as [|[|] row IH]; [done| |]; cbn in *; by rewrite IH.
Qed.

Lemma sum_list_zero {A : Type} (l : list A) :
  sum_list ((fun _ : A => 0%nat) <$> l) = 0%nat.
Proof. induction l as [|x l IH]; [done|]. cbn in *. by rewrite IH. Qed.

(** In the calls for the cells, every kind of call that [drawCell] makes
    once is made once per live cell. *)
Lemma countEvents_cellPaths (p : Event -> bool) (g : Grid) (k : nat) :
  (forall i j n : Z,
     countEvents p (Call_countNeighbors i j :: cellPath i j n) = k) ->
  countEvents p (cellPaths g) = (k * liveCells g)%nat.
Proof.
  intros Hk. unfold cellPaths, liveCells.
  rewrite (countEvents_concat_imap p _
             (fun row : list bool => (k * length (List.filter id row))%nat)).
  - induction g as [|row g IH]; [cbn; lia|].
    rewrite !fmap_cons. cbn [sum_list sum_list_with]. rewrite IH. unfold id. nia.
  - intros i row.
    rewrite (countEvents_concat_imap p _
               (fun b : bool => if b then k else 0%nat)).
    + induction row as [|[|] row IH]; cbn in *; nia.
    + intros j [|]; [apply Hk|done].
Qed.

(** X4. [draw] completes on every grid and changes nothing but the canvas.
    It clears the whole canvas once, first, and then fills one path for
    every live cell and none for a dead one, asking [countNeighbors] once
    per live cell. *)
Theorem draw_draws_the_live_cells (s : State) :
  exists evs : list Event,
    draw s
    = (Normal tt,
       log (ClearRect 0 0 (canvas_width s) (canvas_height s) :: evs) s)
    /\ countEvents isClearRect evs = 0%nat
    /\ countEvents isFill evs = liveCells (grid s)
    /\ countEvents isCall evs = liveCells (grid s).
Proof.
  exists (cellPaths (grid s)). split; [apply draw_spec|].
  rewrite (countEvents_cellPaths isClearRect _ 0),
    (countEvents_cellPaths isFill _ 1),
    (countEvents_cellPaths isCall _ 1) by done.
  lia.
Qed.

Lemma COLORS_min_defined (n : Z) :
  0 <= n -> 0 <= Z.min 3 n <= 3 /\ COLORS (Z.min 3 n) <> None.
Proof.
  intros Hn. split; [lia|].
  assert (H : Z.min 3 n = 0 \/ Z.min 3 n = 1 \/ Z.min 3 n = 2 \/ Z.min 3 n = 3)
    by lia.
  by destruct H as [-> | [-> | [-> | ->]]].
Qed.

(** X5. Every fill style [draw] assigns is one of the four colours of
    [CONFIG.COLORS], never [undefined]: the count it is looked up with is
    a neighbour count, capped at 3.  [drawCell] paints every count of 3 or
    more in the colour of 3, and would assign [undefined] for a negative
    count. *)
Theorem draw_fill_styles_defined (s : State) :
  (exists evs : list Event,
     draw s = (Normal tt, log evs s) /\ Forall styleDefined evs)
  /\ (forall i j n : Z, 3 <= n -> drawCell i j n s = drawCell i j 3 s)
  /\ (forall i j n : Z, n < 0 ->
        exists evs : list Event,
          drawCell i j n s = (Normal tt, log (FillStyle None :: evs) s)).
Proof.
  split; [|split].
  - exists (render (canvas_width s) (canvas_height s) (grid s)).
    split; [apply draw_spec|]. constructor; [done|].
    apply cellPaths_Forall. intros i j row Hi Hj.
    constructor; [done|]. unfold cellPath.
    constructor; [|by repeat constructor].
    exists (Z.min 3 (liveNeighbors (grid s) (Z.of_nat i) (Z.of_nat j))).
    pose proof (liveNeighbors_bounds (grid s) (Z.of_nat i) (Z.of_nat j)) as [Hn _].
    destruct (COLORS_min_defined _ Hn) as [Hk Hc].
    split; [exact Hk|]. split; [reflexivity|exact Hc].
  - intros i j n Hn. unfold drawCell. by rewrite !Z.min_l by lia.
  - intros i j n Hn. eexists. unfold drawCell, modify.
    rewrite Z.min_r by lia. by destruct n.
Qed.

Lemma elem_of_concat_imap {A C : Type} (f : nat -> A -> list C)
    (l : list A) (i : nat) (x : A) (e : C) :
  l !! i = Some x -> e ∈ f i x -> e ∈ concat (imap f l).
Proof.
  revert f i. induction l as [|y l IH]; intros f i Hi He; [done|].
  rewrite imap_cons. cbn [concat]. apply elem_of_app.
  destruct i as [|i].
  - left. by injection Hi as ->.
  - right. by apply (IH (f ∘ S) i).
Qed.

Lemma cellPaths_square (g : Grid) (i j : nat) :
  cell g i j = Some true ->
  RoundRect (10 * Z.of_nat j) (10 * Z.of_nat i) 9 9 2 ∈ cellPaths g.
Proof.
  unfold cell. intros Hc. destruct (g !! i) as [row|] eqn:Hi; [|done].
  unfold cellPaths. apply (elem_of_concat_imap _ g i row); [done|].
  apply (elem_of_concat_imap _ row j true); [done|].
  unfold cellPath, CELL_SIZE. rewrite !(Z.mul_comm _ 10).
  do 3 right. left.
Qed.

(** X6. When the grid has [rows] rows of [cols] cells and the canvas is at
    least [CELL_SIZE * cols] wide and [CELL_SIZE * rows] high, every
    rounded rectangle [draw] makes lies on the canvas.  The rounded
    rectangles are the squares of the live cells: each is the 9 by 9
    square at [(10 j, 10 i)] of a live cell at row [i] and column [j], and
    each live cell has its square. *)
Theorem draw_stays_on_canvas (s : State) (rows cols : nat) :
  hasDims (grid s) rows cols ->
  CELL_SIZE * Z.of_nat rows <= canvas_height s ->
  CELL_SIZE * Z.of_nat cols <= canvas_width s ->
  exists evs : list Event,
    draw s = (Normal tt, log evs s)
    /\ Forall (inCanvas (canvas_width s) (canvas_height s)) evs
    /\ Forall (squareOfLiveCell (grid s)) evs
    /\ (forall i j : nat, cell (grid s) i j = Some true ->
          RoundRect (10 * Z.of_nat j) (10 * Z.of_nat i) 9 9 2 ∈ evs).
Proof.
  intros Hd Hh Hw.
  exists (render (canvas_width s) (canvas_height s) (grid s)).
  split; [apply draw_spec|]. split; [|split].
  - constructor; [done|].
    apply cellPaths_Forall. intros i j row Hi Hj.
    assert (Hc : is_Some (cell (grid s) i j)).
    { unfold cell. rewrite Hi. by exists true. }
    destruct (hasDims_cell _ _ _ _ _ Hd Hc) as [Hr Hcol].
    constructor; [done|]. unfold cellPath.
    repeat constructor; unfold CELL_SIZE in *; lia.
  - constructor; [done|].
    apply cellPaths_Forall. intros i j row Hi Hj.
    constructor; [done|]. unfold cellPath.
    constructor; [done|]. constructor; [done|]. constructor; [|by constructor].
    exists i, j. unfold cell, CELL_SIZE. rewrite Hi.
    repeat split; done || lia.
  - intros i j Hc. right. by apply cellPaths_square.
Qed.

Lemma draw_stays_on_canvas_witness :
  let s := boot 35 29 decileDraws in
  exists evs : list Event,
    draw s = (Normal tt, log evs s)
    /\ Forall (inCanvas 35 29) evs
    /\ Forall (squareOfLiveCell (grid s)) evs
    /\ (forall i j : nat, cell (grid s) i j = Some true ->
          RoundRect (10 * Z.of_nat j) (10 * Z.of_nat i) 9 9 2 ∈ evs).
Proof.
  apply (draw_stays_on_canvas (boot 35 29 decileDraws) 2 3).
  - split; [reflexivity|]. repeat constructor.
  - by vm_compute.
  - by vm_compute.
Defined.

(** ** What update costs and touches *)

Lemma countEvents_all (p : Event -> bool) (l : list Event) :
  Forall (fun e => p e = true) l -> countEvents p l = length l.
Proof.
  unfold countEvents. induction 1 as [|e l He _ IH]; [done|].
  cbn. rewrite He. cbn. by rewrite IH.
Qed.

Lemma length_concat_imap {A C : Type} (f : nat -> A -> list C) (c : A -> nat)
    (l : list A) :
  (forall (i : nat) (x : A), length (f i x) = c x) ->
  length (concat (imap f l)) = sum_list (c <$> l).
Proof.
  revert f. induction l as [|x l IH]; intros f H; [done|].
  rewrite imap_cons. cbn [concat]. rewrite length_app, H.
  rewrite fmap_cons. cbn [sum_list sum_list_with]. f_equal.
  apply IH. intros i y. apply H.
Qed.

Lemma updateCalls_all_calls (g : Grid) :
  Forall (fun e => isCall e = true) (updateCalls g).
Proof.
  unfold updateCalls. apply Forall_concat_imap. intros i row _.
  apply Forall_lookup. intros j e Hj. rewrite list_lookup_imap in Hj.
  destruct (row !! j); [|done]. by injection Hj as <-.
Qed.

Lemma updateCalls_length (g : Grid) : length (updateCalls g) = cellCount g.
Proof.
  unfold updateCalls, cellCount. apply length_concat_imap.
  intros i row. apply length_imap.
Qed.

Lemma nextGen_cellCount (g : Grid) : cellCount (nextGen g) = cellCount g.
Proof.
  unfold cellCount, nextGen. f_equal. apply list_eq. intros i.
  rewrite !list_lookup_fmap, list_lookup_imap.
  destruct (g !! i) as [row|]; [|done]. simpl. by rewrite length_imap.
Qed.

(** X7. [update] completes on every grid, rectangular or not.  It asks
    [countNeighbors] exactly once per cell and makes no other call; it
    assigns a grid with as many cells, and leaves everything else (the
    flag, the scheduled calls, the canvas, the draws) as it was. *)
Theorem update_asks_once_per_cell (s : State) :
  exists (g' : Grid) (evs : list Event),
    update s = (Normal tt, set_grid g' (log evs s))
    /\ length evs = cellCount (grid s)
    /\ countEvents isCall evs = cellCount (grid s)
    /\ cellCount g' = cellCount (grid s)
    /\ length g' = length (grid s).
Proof.
  exists (nextGen (grid s)), (updateCalls (grid s)).
  split; [apply update_spec|].
  rewrite (countEvents_all _ _ (updateCalls_all_calls (grid s))).
  rewrite updateCalls_length, nextGen_cellCount.
  repeat split. unfold nextGen. apply length_imap.
Qed.

(** ** The loop while the flag is true *)

(** X8. While the game runs and a call of [gameLoop] is scheduled, each
    call that comes due computes one generation and schedules exactly one
    call in its place: after [n] of them the grid is the [n]-th generation,
    the flag is still true and as many calls are scheduled as before. *)
Theorem frames_advance_generations (s : State) (n : nat) :
  isRunning s = true -> (0 < timers s)%nat ->
  let s' := run (replicate n Frame) s in
  isRunning s' = true
  /\ timers s' = timers s
  /\ grid s' = Nat.iter n nextGen (grid s)
  /\ nextGen (grid s) = grid (snd (update s)).
Proof.
  intros E Ht. cbn zeta. rewrite update_grid.
  revert s E Ht. induction n as [|n IH]; intros s E Ht; [done|].
  destruct (timers s) as [|k] eqn:Et; [lia|].
  cbn [replicate]. unfold run in *. cbn [foldl].
  rewrite (frame_running s k E Et).
  destruct (IH (tick (set_timers k s)) E) as (H1 & H2 & H3 & _);
    [cbn; lia|].
  rewrite H1, H2, H3. rewrite Nat.iter_succ_r. by repeat split.
Qed.

Lemma frames_advance_generations_witness :
  let s := tick (gameWith true blinker) in
  let s' := run (replicate 2 Frame) s in
  isRunning s' = true
  /\ timers s' = timers s
  /\ grid s' = Nat.iter 2 nextGen (grid s)
  /\ nextGen (grid s) = grid (snd (update s)).
Proof.
  apply (frames_advance_generations (tick (gameWith true blinker)) 2);
    by vm_compute.
Defined.

(** X9. Stopping a running game and starting it again computes one
    generation at once and leaves one more call of [gameLoop] scheduled
    than before: the call scheduled before the stop is still there. *)
Theorem restart_adds_a_scheduled_call (s : State) :
  isRunning s = true ->
  let s' := run [ToggleGame; ToggleGame] s in
  isRunning s' = true
  /\ timers s' = S (timers s)
  /\ grid s' = nextGen (grid s)
  /\ nextGen (grid s) = grid (snd (update s)).
Proof.
  intros E. cbn zeta. rewrite update_grid. unfold run, exec. cbn [foldl handle].
  rewrite (toggle_running s E). cbn [snd].
  by rewrite toggle_stopped.
Qed.

Lemma restart_adds_a_scheduled_call_witness :
  let s := tick (gameWith true blinker) in
  let s' := run [ToggleGame; ToggleGame] s in
  isRunning s' = true
  /\ timers s' = S (timers s)
  /\ grid s' = nextGen (grid s)
  /\ nextGen (grid s) = grid (snd (update s)).
Proof.
  by apply (restart_adds_a_scheduled_call (tick (gameWith true blinker))).
Defined.

(** ** Grids without life, grids without cells *)

Lemma get_Some_lookup {A : Type} (l : list A) (k : Number) (x : A) :
  get l k = Some x -> exists i : nat, l !! i = Some x.
Proof.
  unfold get. destruct k as [z|]; [|done].
  destruct (z <? 0); [done|]. eauto.
Qed.

Lemma neighborAlive_dead (g : Grid) (row col : Z) (ij : Z * Z) :
  allDead g -> neighborAlive g row col ij = false.
Proof.
  intros Hdead. unfold neighborAlive.
  destruct (get g _) as [r|] eqn:Er; [|done].
  destruct (get r _) as [[|]|] eqn:Ec; [|done|done].
  apply get_Some_lookup in Er as [i Hi]. apply get_Some_lookup in Ec as [j Hj].
  destruct (Hdead i j). unfold cell. by rewrite Hi.
Qed.

Lemma liveNeighbors_dead (g : Grid) (row col : Z) :
  allDead g -> liveNeighbors g row col = 0.
Proof.
  intros Hdead. unfold liveNeighbors, offsets. cbn [fold_left].
  by rewrite !neighborAlive_dead.
Qed.

Lemma nextGen_dead (g : Grid) : allDead g -> nextGen g = g.
Proof.
  intros Hdead. apply grid_ext; [unfold nextGen; apply length_imap|].
  intros r c. rewrite cell_nextGen, liveNeighbors_dead by done.
  destruct (cell g r c) as [[|]|] eqn:E; [|done|done].
  by destruct (Hdead r c).
Qed.

Lemma concat_imap_nil {A C : Type} (f : nat -> A -> list C) (l : list A) :
  (forall (i : nat) (x : A), l !! i = Some x -> f i x = []) ->
  concat (imap f l) = [].
Proof.
  revert f. induction l as [|x l IH]; intros f H; [done|].
  rewrite imap_cons. cbn [concat]. rewrite (H 0%nat x) by done.
  apply IH. intros i y Hi. by apply (H (S i)).
Qed.

Lemma cellPaths_dead (g : Grid) : allDead g -> cellPaths g = [].
Proof.
  intros Hdead. unfold cellPaths. apply concat_imap_nil. intros i row Hi.
  apply concat_imap_nil. intros j [|] Hj; [|done].
  destruct (Hdead i j). unfold cell. by rewrite Hi.
Qed.

(** X10. A grid with no live cell stays as it is: [update] assigns the same
    grid again, and [draw] only clears the canvas.  Nothing is born from
    nothing, wrap-around included. *)
Theorem dead_grid_stays_dead (s : State) :
  allDead (grid s) ->
  fst (update s) = Normal tt
  /\ grid (snd (update s)) = grid s
  /\ draw s
     = (Normal tt, log [ClearRect 0 0 (canvas_width s) (canvas_height s)] s).
Proof.
  intros Hdead. rewrite update_spec, draw_spec. cbn [fst snd grid set_grid].
  split; [done|]. split; [by apply nextGen_dead|].
  unfold render. by rewrite cellPaths_dead.
Qed.

Lemma dead_grid_stays_dead_witness :
  let s := gameWith true [[false; false; false]; [false; false; false]] in
  fst (update s) = Normal tt
  /\ grid (snd (update s)) = grid s
  /\ draw s = (Normal tt, log [ClearRect 0 0 0 0] s).
Proof.
  apply (dead_grid_stays_dead
           (gameWith true [[false; false; false]; [false; false; false]])).
  intros [|[|r]] [|[|[|c]]]; by vm_compute.
Defined.

Lemma seedGrid_no_columns (rnd : nat -> Q) (d rows : nat) :
  seedGrid rnd d rows 0 = replicate rows [].
Proof.
  revert d. induction rows as [|rows IH]; intros d; [done|].
  cbn [seedGrid replicate]. by rewrite IH.
Qed.

Lemma replicate_nil_dead (n : nat) : allDead (replicate n []).
Proof.
  intros r c. unfold cell.
  destruct (replicate n [] !! r) as [row|] eqn:E; [|done].
  apply lookup_replicate in E as [-> _]. done.
Qed.

Lemma updateCalls_no_columns (n : nat) : updateCalls (replicate n []) = [].
Proof.
  unfold updateCalls. apply concat_imap_nil. intros i row Hi.
  by apply lookup_replicate in Hi as [-> _].
Qed.

(** X11. In a window narrower than a cell but at least one cell high,
    [initGrid] makes a grid of [rows] empty rows.  On it [update] completes,
    calls nothing and changes nothing, and [draw] only clears the canvas:
    [countNeighbors], whose column arithmetic would give NaN there, is not
    called. *)
Theorem narrow_window_grid_has_no_cells (s : State) :
  0 <= innerHeight s / CELL_SIZE <= MAX_ARRAY_LENGTH ->
  0 <= innerWidth s < CELL_SIZE ->
  let s0 := snd (initGrid s) in
  fst (initGrid s) = Normal tt
  /\ grid s0 = replicate (viewRows s) []
  /\ draws s0 = draws s
  /\ update s0 = (Normal tt, s0)
  /\ draw s0
     = (Normal tt, log [ClearRect 0 0 (canvas_width s) (canvas_height s)] s0).
Proof.
  intros Hh Hw. cbn zeta.
  assert (Hc : viewCols s = 0%nat).
  { unfold viewCols. by rewrite Z.div_small. }
  assert (Hv : validViewport s).
  { split; [done|]. rewrite Z.div_small by done. by vm_compute. }
  rewrite initGrid_spec by done. cbn [fst snd]. rewrite Hc.
  rewrite seedGrid_no_columns, Nat.mul_0_r, Nat.add_0_r, set_draws_same.
  split; [done|]. split; [done|]. split; [done|]. split.
  - rewrite update_spec. cbn [grid set_grid].
    rewrite updateCalls_no_columns, log_nil.
    rewrite nextGen_dead by apply replicate_nil_dead.
    by destruct s.
  - rewrite draw_spec. cbn [grid set_grid canvas_width canvas_height].
    unfold render. by rewrite cellPaths_dead by apply replicate_nil_dead.
Qed.

Lemma narrow_window_grid_has_no_cells_witness :
  let s := page 7 29 decileDraws in
  let s0 := snd (initGrid s) in
  fst (initGrid s) = Normal tt
  /\ grid s0 = replicate (viewRows s) []
  /\ draws s0 = draws s
  /\ update s0 = (Normal tt, s0)
  /\ draw s0 = (Normal tt, log [ClearRect 0 0 300 150] s0).
Proof.
  apply (narrow_window_grid_has_no_cells (page 7 29 decileDraws));
    by vm_compute.
Defined.

(** ** A grid of one row *)

Lemma wrapped_in_range (row : list bool) (c : nat) :
  (c < length row)%nat -> wrapped row (Z.of_nat c) = truthy (row !! c).
Proof.
  intros Hc. unfold wrapped, js_rem, len.
  destruct (Z.eqb_spec (Z.of_nat (length row)) 0) as [E|_]; [lia|].
  rewrite Z.rem_mod_nonneg by lia.
  rewrite <- (Z.mul_1_l (Z.of_nat (length row))) at 1.
  rewrite Z.mod_add, Z.mod_small by lia.
  by rewrite get_Int, Nat2Z.id by lia.
Qed.

Lemma neighborAlive_single_row (row : list bool) (c i j : Z) :
  neighborAlive [row] 0 c (i, j) = wrapped row (c + j).
Proof.
  unfold neighborAlive, wrapped. cbn [fst snd width].
  change (len [row]) with 1. unfold js_rem at 1. cbn [Z.eqb].
  by rewrite Z.rem_1_r.
Qed.

(** X12. On a grid of a single row the rows above and below a cell are the
    row itself: [countNeighbors] counts the cell twice and its left and
    right neighbours three times each.  So a live cell between two dead
    ones has a count of 2 and survives [update]. *)
Theorem single_row_counts_itself (s : State) (row : list bool) (c : nat) :
  grid s = [row] -> (c < length row)%nat ->
  fst (countNeighbors 0 (Z.of_nat c) s)
  = Normal (2 * Z.b2z (truthy (row !! c))
            + 3 * Z.b2z (wrapped row (Z.of_nat c - 1))
            + 3 * Z.b2z (wrapped row (Z.of_nat c + 1)))
  /\ (row !! c = Some true ->
      wrapped row (Z.of_nat c - 1) = false ->
      wrapped row (Z.of_nat c + 1) = false ->
      cell (grid (snd (update s))) 0 c = Some true).
Proof.
  intros Hg Hc.
  assert (Hn : liveNeighbors [row] 0 (Z.of_nat c)
               = 2 * Z.b2z (truthy (row !! c))
                 + 3 * Z.b2z (wrapped row (Z.of_nat c - 1))
                 + 3 * Z.b2z (wrapped row (Z.of_nat c + 1))).
  { unfold liveNeighbors, offsets. cbn [fold_left].
    rewrite !neighborAlive_single_row.
    rewrite Z.add_0_r, wrapped_in_range by done.
    change (Z.of_nat c + -1) with (Z.of_nat c - 1).
    by destruct (truthy _), (wrapped row (_ - 1)), (wrapped row (_ + 1)). }
  split.
  - rewrite countNeighbors_spec by (by rewrite ?Hg). cbn [fst].
    by rewrite Hg, Hn.
  - intros Hlive Hl Hr. rewrite update_grid, cell_nextGen, Hg.
    change (Z.of_nat 0) with 0. rewrite Hn, Hlive, Hl, Hr.
    unfold cell. cbn. by rewrite Hlive.
Qed.

Lemma single_row_counts_itself_witness :
  let row := [false; true; false; false] in
  fst (countNeighbors 0 1 (gameWith true [row])) = Normal 2
  /\ cell (grid (snd (update (gameWith true [row])))) 0 1 = Some true.
Proof.
  destruct (single_row_counts_itself
              (gameWith true [[false; true; false; false]])
              [false; true; false; false] 1 eq_refl)
    as [Hcount Hlive]; [cbn; lia|].
  split; [exact Hcount|]. by apply Hlive.
Defined.

(** ** Resetting a running game *)

(** X13. Resetting a game, running or not, in a window of a valid size
    silences the calls of [gameLoop] still scheduled: as they come due they
    leave the new grid, the canvas and the flag as [reset] left them, and
    schedule nothing. *)
Theorem reset_silences_scheduled_calls (s : State) (n : nat) :
  validViewport s ->
  let s1 := exec s ResetGame in
  let s2 := run (replicate n Frame) s1 in
  s2 = set_timers (timers s - n) s1
  /\ grid s2 = seedGrid (entropy s) (draws s) (viewRows s) (viewCols s)
  /\ isRunning s2 = false
  /\ trace s2
     = trace s ++ render (canvas_width s) (canvas_height s) (grid s2).
Proof.
  intros Hv. cbn zeta. unfold exec. cbn [handle].
  rewrite reset_spec by done. cbn [snd].
  by rewrite frames_stopped.
Qed.

Lemma reset_silences_scheduled_calls_witness :
  let s := set_window 35 29 (tick (tick (gameWith true blinker))) in
  let s1 := exec s ResetGame in
  let s2 := run (replicate 3 Frame) s1 in
  s2 = set_timers 0 s1
  /\ grid s2 = seedGrid (entropy s) (draws s) 2 3
  /\ isRunning s2 = false
  /\ trace s2 = trace s ++ render 0 0 (grid s2).
Proof.
  apply (reset_silences_scheduled_calls
           (set_window 35 29 (tick (tick (gameWith true blinker)))) 3).
  by vm_compute.
Defined.
